(** * pydantic-spark: the schema translator of [src/pydantic_spark/base.py]

    A shallow embedding of [SparkBase._spark_schema] and of its four nested
    functions [get_definition], [get_type_of_definition], [get_type] and
    [get_fields], followed by the properties of the translator.

    The Python code works on plain dictionaries: the input is the dictionary
    returned by [cls.schema()], the output is a dictionary again.  Both are
    modelled by one type [json] of Python values; a dictionary is an
    association list in insertion order, which is the order [dict.items()]
    iterates in.  The cache [classes_seen] is only read with [.get] and
    written with [classes_seen[k] = v], so it is a finite map. *)

From Stdlib Require Import ZArith String Ascii List Bool Lia.
From stdpp Require Import base option list gmap strings.

Local Open Scope string_scope.
Local Open Scope list_scope.

(** ** Python values *)

#[local] Set Warnings "-register-all".

Inductive json : Type :=
| JNull                                  (* None *)
| JBool (b : bool)
| JInt (z : Z)
| JFloat (m e : Z)                       (* the finite double m * 2^e *)
| JStr (s : string)
| JArr (l : list json)
| JObj (l : list (string * json)).       (* dict with str keys, insertion order *)

(** The exceptions the translator can raise.  The two explicit [raise]
    statements carry the value interpolated into their f-string. *)
Inductive message : Type :=
| Definition_does_not_exist (id : string)   (* f"Definition {id} does not exist" *)
| Unknown_enum_type (enum_type : json).     (* f"Unknown enum type: {enum_type}" *)

Inductive exn : Type :=
| RuntimeError (m : message)
| NotImplementedError (t : json)            (* f"Type '{t}' not support yet, ..." *)
| AttributeError
| TypeError
| KeyError
| IndexError
| OutOfFuel.                                (* the model's recursion budget, not a Python exception *)

Inductive result (A : Type) : Type :=
| Ok (a : A)
| Err (e : exn).
Arguments Ok {A} a.
Arguments Err {A} e.

Definition rbind {A B} (r : result A) (k : A -> result B) : result B :=
  match r with
  | Ok a => k a
  | Err e => Err e
  end.

(** ** State and exceptions

    Every nested function closes over [classes_seen]; a computation takes the
    cache and returns a value with the new cache, or an exception (the cache
    is then lost with the aborted call). *)

Abbreviation cache := (gmap string json).

Definition M (A : Type) : Type := cache -> result (A * cache).

Definition ret {A} (a : A) : M A := fun seen => Ok (a, seen).
Definition raise {A} (e : exn) : M A := fun _ => Err e.
Definition bind {A B} (m : M A) (k : A -> M B) : M B :=
  fun seen =>
    match m seen with
    | Ok (a, seen') => k a seen'
    | Err e => Err e
    end.
Definition lift {A} (r : result A) : M A :=
  fun seen =>
    match r with
    | Ok a => Ok (a, seen)
    | Err e => Err e
    end.
(** [classes_seen.get(k)] and [classes_seen[k] = v] *)
Definition classes_seen_get (k : string) : M json :=
  fun seen => Ok (default JNull (seen !! k), seen).
Definition classes_seen_set (k : string) (v : json) : M unit :=
  fun seen => Ok (tt, <[k := v]> seen).

Declare Scope py_scope.
Delimit Scope py_scope with py.
Notation "'let*' x := m 'in' k" := (bind m (fun x => k))
  (at level 10, x pattern, m at level 100, k at level 200) : py_scope.
Notation "'let?' x := r 'in' k" := (rbind r (fun x => k))
  (at level 10, x pattern, r at level 100, k at level 200) : py_scope.
Local Open Scope py_scope.

(** ** The Python operations the translator uses *)

(** [bool(v)] *)
Definition truthy (v : json) : bool :=
  match v with
  | JNull => false
  | JBool b => b
  | JInt z => negb (z =? 0)%Z
  | JFloat m _ => negb (m =? 0)%Z
  | JStr s => negb (String.eqb s "")
  | JArr l => match l with [] => false | _ :: _ => true end
  | JObj l => match l with [] => false | _ :: _ => true end
  end.

(** [v == s] for a str literal [s] *)
Definition py_eq_str (v : json) (s : string) : bool :=
  match v with
  | JStr s' => String.eqb s' s
  | _ => false
  end.

Fixpoint dict_lookup (k : string) (l : list (string * json)) : option json :=
  match l with
  | [] => None
  | (k', v) :: l' => if String.eqb k k' then Some v else dict_lookup k l'
  end.

(** [d[k] = v] keeps the position of an existing key and appends a new one. *)
Fixpoint dict_set (k : string) (v : json) (l : list (string * json)) : list (string * json) :=
  match l with
  | [] => [(k, v)]
  | (k', v') :: l' => if String.eqb k k' then (k, v) :: l' else (k', v') :: dict_set k v l'
  end.

(** [v.get(k, dflt)]: only a dict has [.get]. *)
Definition py_get (v : json) (k : string) (dflt : json) : result json :=
  match v with
  | JObj l => Ok (default dflt (dict_lookup k l))
  | _ => Err AttributeError
  end.

(** [v[k]] for a str [k] *)
Definition py_getitem (v : json) (k : string) : result json :=
  match v with
  | JObj l => match dict_lookup k l with Some x => Ok x | None => Err KeyError end
  | _ => Err TypeError
  end.

(** [v[k] = x] for a str [k] *)
Definition py_setitem (v : json) (k : string) (x : json) : result json :=
  match v with
  | JObj l => Ok (JObj (dict_set k x l))
  | _ => Err TypeError
  end.

(** [v.items()] *)
Definition py_items (v : json) : result (list (string * json)) :=
  match v with
  | JObj l => Ok l
  | _ => Err AttributeError
  end.

Fixpoint is_substring (p s : string) : bool :=
  String.prefix p s ||
  match s with
  | EmptyString => false
  | String _ s' => is_substring p s'
  end.

(** [k in v] for a str [k]: key of a dict, element of a list, substring of a
    str; the other values are not iterable. *)
Definition py_in (k : string) (v : json) : result bool :=
  match v with
  | JObj l => Ok (bool_decide (is_Some (dict_lookup k l)))
  | JArr l => Ok (existsb (fun x => py_eq_str x k) l)
  | JStr s => Ok (is_substring k s)
  | _ => Err TypeError
  end.

Fixpoint chars (s : string) : list json :=
  match s with
  | EmptyString => []
  | String c s' => JStr (String c EmptyString) :: chars s'
  end.

(** [for x in v] *)
Definition py_iter (v : json) : result (list json) :=
  match v with
  | JArr l => Ok l
  | JStr s => Ok (chars s)
  | JObj l => Ok (map (fun kv => JStr (fst kv)) l)
  | _ => Err TypeError
  end.

(** [v[0]] *)
Definition py_getitem0 (v : json) : result json :=
  match v with
  | JArr (x :: _) => Ok x
  | JArr [] => Err IndexError
  | JStr (String c _) => Ok (JStr (String c EmptyString))
  | JStr EmptyString => Err IndexError
  | JObj _ => Err KeyError
  | _ => Err TypeError
  end.

(** [s.replace(old, "")]: every occurrence of [old], left to right, without
    overlap.  [skip] counts the characters of a match still to drop. *)
Fixpoint remove_all (old : string) (skip : nat) (s : string) : string :=
  match s with
  | EmptyString => EmptyString
  | String c s' =>
      match skip with
      | S k => remove_all old k s'
      | O =>
          if String.prefix old s
          then remove_all old (String.length old - 1) s'
          else String c (remove_all old 0 s')
      end
  end.

(** [r.replace("#/definitions/", "")]: only a str has [.replace]. *)
Definition strip_definitions (r : json) : result string :=
  match r with
  | JStr s => Ok (remove_all "#/definitions/" 0 s)
  | _ => Err AttributeError
  end.

(** ** The translator

    [schema] is the argument of [_spark_schema]; the nested functions close
    over it. *)

Section Translator.

Variable schema : json.

(** The generic type that stands for a recursive reference (lines 73-80). *)
Definition cycle_placeholder : json :=
  JObj [("type",
         JObj [("type", JStr "map");
               ("keyType", JStr "string");
               ("valueType", JStr "string");
               ("valueContainsNull", JBool true)])].

Definition get_definition (ref schema : json) : result json :=
  let? id := strip_definitions ref in
  let? defs := py_get schema "definitions" (JObj []) in
  let? d := py_get defs id JNull in
  match d with
  | JNull => Err (RuntimeError (Definition_does_not_exist id))
  | _ => Ok d
  end.

(** [get_fields] is passed in: the recursion is tied in [get_type] below. *)
Definition get_type_of_definition (get_fields : json -> M (list json))
    (ref schema : json) : M json :=
  let* d := lift (get_definition ref schema) in
  let* has_enum := lift (py_in "enum" d) in
  if has_enum : bool then
    let* enum_type := lift (py_get d "type" JNull) in
    if py_eq_str enum_type "string" then ret (JStr "string")
    else if py_eq_str enum_type "number" then ret (JStr "double")
    else if py_eq_str enum_type "integer" then ret (JStr "long")
    else raise (RuntimeError (Unknown_enum_type enum_type))
  else
    let* fields := get_fields d in
    ret (JObj [("type", JStr "struct"); ("fields", JArr fields)]).

(** One call of [get_type]; [get_type] and [get_fields] are the recursive
    calls. *)
Definition get_type_body (get_type : json -> M (json * json))
    (get_fields : json -> M (list json)) (value : json) : M (json * json) :=
  let* t := lift (py_get value "type" JNull) in
  let* t :=
    (if truthy t then ret t
     else
       let* anyof := lift (py_get value "anyOf" JNull) in
       ret (if truthy anyof then JStr "list" else JNull)) in
  let* f := lift (py_get value "format" JNull) in
  let* r := lift (py_get value "$ref" JNull) in
  let* a := lift (py_get value "additionalProperties" JNull) in
  let* has_default := lift (py_in "default" value) in
  let* dflt := lift (py_get value "default" JNull) in
  let metadata := JObj (if has_default : bool then [("default", dflt)] else []) in
  match r with
  | JNull =>
      if py_eq_str t "array" then
        let* items := lift (py_get value "items" JNull) in
        let* (tn, metadata) := get_type items in
        ret (JObj [("type", JStr "array"); ("elementType", tn); ("containsNull", JBool true)],
             metadata)
      else if py_eq_str t "string" && py_eq_str f "date-time" then
        ret (JStr "timestamp", metadata)
      else if py_eq_str t "string" && py_eq_str f "date" then
        ret (JStr "date", metadata)
      else if py_eq_str t "string" && py_eq_str f "uuid" then
        let* metadata := lift (py_setitem metadata "logicalType" (JStr "uuid")) in
        ret (JStr "string", metadata)
      else if py_eq_str t "string" then ret (JStr "string", metadata)
      else if py_eq_str t "number" then ret (JStr "double", metadata)
      else if py_eq_str t "integer" then ret (JStr "long", metadata)
      else if py_eq_str t "boolean" then ret (JStr "boolean", metadata)
      else if py_eq_str t "list" then ret (JStr "string", metadata)
      else if py_eq_str t "object" then
        let* value_type :=
          match a with
          | JNull => ret (JStr "string")
          | _ => let* (value_type, m) := get_type a in ret value_type
          end in
        ret (JObj [("keyType", JStr "string"); ("type", JStr "map");
                   ("valueContainsNull", JBool true); ("valueType", value_type)],
             metadata)
      else raise (NotImplementedError t)
  | _ =>
      let* class_name := lift (strip_definitions r) in
      let* seen := classes_seen_get class_name in
      match seen with
      | JNull =>
          let* _ := classes_seen_set class_name (JStr "in progress") in
          let* spark_type := get_type_of_definition get_fields r schema in
          let* _ := classes_seen_set class_name spark_type in
          ret (spark_type, metadata)
      | _ =>
          if py_eq_str seen "in progress" then
            let* _ := classes_seen_set class_name cycle_placeholder in
            ret (cycle_placeholder, metadata)
          else
            let* spark_type := classes_seen_get class_name in
            ret (spark_type, metadata)
      end
  end.

(** *** The union of structs (lines 148-171)

    The branch builds [subtype_fields], a [defaultdict] from a field name to
    the fields of that name, one per alternative that has it.  The field
    dictionaries it updates in place are the ones held by [classes_seen];
    the model returns the merged value and leaves the cache as [get_type]
    left it, and it groups fields by str names only (another name raises
    [TypeError] here).  Neither matters to the translation: the branch is
    never entered ([union_branch_dead] below). *)

Fixpoint group_add (name : string) (field : json) (groups : list (string * list json))
    : list (string * list json) :=
  match groups with
  | [] => [(name, [field])]
  | (n, fs) :: groups' =>
      if String.eqb name n then (n, fs ++ [field]) :: groups'
      else (n, fs) :: group_add name field groups'
  end.

Fixpoint group_fields (fields : list json) (groups : list (string * list json))
    : result (list (string * list json)) :=
  match fields with
  | [] => Ok groups
  | field :: fields' =>
      let? name := py_getitem field "name" in
      match name with
      | JStr n => group_fields fields' (group_add n field groups)
      | _ => Err TypeError
      end
  end.

(** [all(field["nullable"] for field in subfields)] *)
Fixpoint all_nullable (subfields : list json) : result bool :=
  match subfields with
  | [] => Ok true
  | field :: subfields' =>
      let? n := py_getitem field "nullable" in
      if truthy n then all_nullable subfields' else Ok false
  end.

Definition merge_field (p_class : json) (len_anyof : nat) (subfields : list json)
    : result json :=
  match subfields with
  | [] => Err IndexError
  | first_field :: _ =>
      let? nullable :=
        (if Nat.eqb (length subfields) len_anyof
         then all_nullable subfields else Ok true) in
      let? first_field := py_setitem first_field "nullable" (JBool nullable) in
      let? metadata := py_getitem first_field "metadata" in
      let? metadata := py_setitem metadata "parentClass" p_class in
      py_setitem first_field "metadata" metadata
  end.

Fixpoint merge_groups (p_class : json) (len_anyof : nat)
    (groups : list (string * list json)) : result (list json) :=
  match groups with
  | [] => Ok []
  | (_, subfields) :: groups' =>
      let? first_field := merge_field p_class len_anyof subfields in
      let? unique := merge_groups p_class len_anyof groups' in
      Ok (first_field :: unique)
  end.

(** The loop [for v in anyof] with the variables it leaves behind:
    [subtype_fields] and the last [spark_type, metadata]. *)
Fixpoint collect_subtypes (get_type : json -> M (json * json)) (alts : list json)
    (groups : list (string * list json)) (last : json * json)
    : M (list (string * list json) * (json * json)) :=
  match alts with
  | [] => ret (groups, last)
  | v :: alts' =>
      let* (spark_type, metadata) := get_type v in
      let* spark_type_fields := lift (py_get spark_type "fields" JNull) in
      let* fields := lift (py_iter spark_type_fields) in
      let* groups := lift (group_fields fields groups) in
      collect_subtypes get_type alts' groups (spark_type, metadata)
  end.

Definition merge_union (get_type : json -> M (json * json)) (p_class anyof : json)
    (first : json * json) : M (json * json) :=
  let* alts := lift (py_iter anyof) in
  let* (groups, (spark_type, metadata)) := collect_subtypes get_type alts [] first in
  let* unique := lift (merge_groups p_class (length alts) groups) in
  let* spark_type := lift (py_setitem spark_type "fields" (JArr unique)) in
  ret (spark_type, metadata).

(** *** The field builder *)

(** The body of the loop of [get_fields] for the property [key: value]:
    the [struct_field] appended to [fields]. *)
Definition struct_field (get_type : json -> M (json * json)) (s required : json)
    (key : string) (value : json) : M json :=
  let* p_class := lift (py_get s "title" JNull) in
  let* anyof := lift (py_get value "anyOf" JNull) in
  let* (spark_type, metadata) :=
    (if truthy anyof then
       let* first_value := lift (py_getitem0 anyof) in
       let* (first_subtype, first_metadata) := get_type first_value in
       if py_eq_str first_subtype "struct"
       then merge_union get_type p_class anyof (first_subtype, first_metadata)
       else ret (first_subtype, first_metadata)
     else get_type value) in
  let* metadata := lift (py_setitem metadata "parentClass" p_class) in
  let* has_default := lift (py_in "default" metadata) in
  let* nullable :=
    (if has_default : bool then ret false
     else let* in_required := lift (py_in key required) in ret (negb in_required)) in
  ret (JObj [("name", JStr key);
             ("nullable", JBool nullable);
             ("metadata", metadata);
             ("type", spark_type)]).

Fixpoint get_fields_loop (get_type : json -> M (json * json)) (s required : json)
    (items : list (string * json)) (fields : list json) : M (list json) :=
  match items with
  | [] => ret fields
  | (key, value) :: items' =>
      let* field := struct_field get_type s required key value in
      get_fields_loop get_type s required items' (fields ++ [field])
  end.

Definition get_fields_body (get_type : json -> M (json * json)) (s : json)
    : M (list json) :=
  let* required := lift (py_get s "required" (JArr [])) in
  let* properties := lift (py_get s "properties" (JObj [])) in
  let* items := lift (py_items properties) in
  get_fields_loop get_type s required items [].

(** *** Tying the recursion

    [get_type] calls itself and, through [get_type_of_definition],
    [get_fields], which calls [get_type] once per property.  [fuel] bounds
    the depth of nested [get_type] calls; [translate_total] below shows
    that the translator never needs more than [fuel_for schema].  (Python's
    own bound on the depth of calls, the recursion limit, is not modelled.) *)
Fixpoint get_type (fuel : nat) (value : json) : M (json * json) :=
  match fuel with
  | O => raise OutOfFuel
  | S fuel' => get_type_body (get_type fuel') (get_fields_body (get_type fuel')) value
  end.

Definition get_fields (fuel : nat) (s : json) : M (list json) :=
  get_fields_body (get_type fuel) s.

End Translator.

Definition _spark_schema (fuel : nat) (schema : json) : result json :=
  match get_fields schema fuel schema ∅ with
  | Ok (fields, _) => Ok (JObj [("fields", JArr fields); ("type", JStr "struct")])
  | Err e => Err e
  end.

(** * The vocabulary of the properties *)

(** ** Descriptors *)

(** The metadata [get_type] starts from: the descriptor's default, if any. *)
Definition carried_default (l : list (string * json)) : json :=
  JObj (if bool_decide (is_Some (dict_lookup "default" l))
        then [("default", default JNull (dict_lookup "default" l))]
        else []).

(** [value.get("$ref")] is [None]. *)
Definition no_ref (l : list (string * json)) : Prop :=
  default JNull (dict_lookup "$ref" l) = JNull.

(** [value["$ref"]] is a str that names the definition [name]. *)
Definition ref_to (l : list (string * json)) (name : string) : Prop :=
  exists r, dict_lookup "$ref" l = Some (JStr r) /\
            name = remove_all "#/definitions/" 0 r.

Definition has_type (l : list (string * json)) (t : string) : Prop :=
  dict_lookup "type" l = Some (JStr t).


(** The type token [get_type] dispatches on: the descriptor's [type], or
    ['list'] for an untyped descriptor with a non-empty [anyOf], or [None]. *)
Definition effective_type (l : list (string * json)) : json :=
  let t := default JNull (dict_lookup "type" l) in
  if truthy t then t
  else if truthy (default JNull (dict_lookup "anyOf" l)) then JStr "list" else JNull.


(** The array branch is the one that replaces the metadata by the metadata
    of [items]. *)
Definition array_branch (l : list (string * json)) : Prop :=
  no_ref l /\ py_eq_str (effective_type l) "array" = true.

(** The property is a union: [get_fields] takes the branch of line 141. *)
Definition union_property (l : list (string * json)) : bool :=
  truthy (default JNull (dict_lookup "anyOf" l)).


(** ** Resolved types *)

Definition struct_type (fields : list json) : json :=
  JObj [("type", JStr "struct"); ("fields", JArr fields)].

Definition array_type (tn : json) : json :=
  JObj [("type", JStr "array"); ("elementType", tn); ("containsNull", JBool true)].

Definition map_type (value_type : json) : json :=
  JObj [("keyType", JStr "string"); ("type", JStr "map");
        ("valueContainsNull", JBool true); ("valueType", value_type)].

(** The map type the comment of lines 70-72 announces, as the object branch
    (line 124) builds it for a map of strings. *)
Definition string_map : json := map_type (JStr "string").

Definition empty_struct : json :=
  JObj [("fields", JArr []); ("type", JStr "struct")].

(** [get_type] on a descriptor without [$ref], in terms of the token it
    dispatches on ([get_type_no_ref] below). *)
Definition typed_branch (gt : json -> M (json * json)) (l : list (string * json))
    : M (json * json) :=
  let t := effective_type l in
  let f := default JNull (dict_lookup "format" l) in
  let a := default JNull (dict_lookup "additionalProperties" l) in
  let metadata := carried_default l in
  if py_eq_str t "array" then
    let* (tn, metadata) := gt (default JNull (dict_lookup "items" l)) in
    ret (array_type tn, metadata)
  else if py_eq_str t "string" && py_eq_str f "date-time" then ret (JStr "timestamp", metadata)
  else if py_eq_str t "string" && py_eq_str f "date" then ret (JStr "date", metadata)
  else if py_eq_str t "string" && py_eq_str f "uuid" then
    let* metadata := lift (py_setitem metadata "logicalType" (JStr "uuid")) in
    ret (JStr "string", metadata)
  else if py_eq_str t "string" then ret (JStr "string", metadata)
  else if py_eq_str t "number" then ret (JStr "double", metadata)
  else if py_eq_str t "integer" then ret (JStr "long", metadata)
  else if py_eq_str t "boolean" then ret (JStr "boolean", metadata)
  else if py_eq_str t "list" then ret (JStr "string", metadata)
  else if py_eq_str t "object" then
    let* value_type :=
      match a with
      | JNull => ret (JStr "string")
      | _ => let* (value_type, m) := gt a in ret value_type
      end in
    ret (map_type value_type, metadata)
  else raise (NotImplementedError t).

(** ** Fields *)

(** What [struct_field] returns for the property [key] of the node [s]:
    the four entries in this order, the title of [s] as [parentClass], and
    [nullable] false as soon as the metadata has a default. *)
Definition is_struct_field (s : json) (key : string) (field : json) : Prop :=
  exists title nullable metadata spark_type,
    py_get s "title" JNull = Ok title /\
    dict_lookup "parentClass" metadata = Some title /\
    (is_Some (dict_lookup "default" metadata) -> nullable = false) /\
    field = JObj [("name", JStr key);
                  ("nullable", JBool nullable);
                  ("metadata", JObj metadata);
                  ("type", spark_type)].



(** [field["metadata"]["parentClass"]] *)
Definition parent_class_of (field : json) : result json :=
  let? metadata := py_getitem field "metadata" in
  py_getitem metadata "parentClass".

(** ** Definitions and the cache *)

(** [schema.get("definitions", {}).get(id)] with the test that follows. *)
Definition definition_of (schema : json) (id : string) : result json :=
  let? defs := py_get schema "definitions" (JObj []) in
  let? d := py_get defs id JNull in
  match d with
  | JNull => Err (RuntimeError (Definition_does_not_exist id))
  | _ => Ok d
  end.

Definition defined (schema : json) (id : string) : Prop :=
  exists d, definition_of schema id = Ok d.

(** The definitions of a schema: [schema.get("definitions", {})] when it is
    a dictionary. *)
Definition definitions_table (schema : json) : option (list (string * json)) :=
  match py_get schema "definitions" (JObj []) with
  | Ok (JObj defs) => Some defs
  | _ => None
  end.

Definition definition_names (schema : json) : list string :=
  match definitions_table schema with
  | Some defs => map fst defs
  | None => []
  end.

(** A type that [get_type] can return: not [None], and not the str
    ["struct"] that line 148 compares it with. *)
Definition resolved (v : json) : Prop := v <> JNull /\ v <> JStr "struct".

(** Every cached name is the name of a definition, and its entry is the
    marker ["in progress"] or a resolved type. *)
Definition cache_inv (schema : json) (seen : cache) : Prop :=
  forall k v, seen !! k = Some v -> resolved v /\ defined schema k.

(** ** The measure of termination *)

Fixpoint size (v : json) : nat :=
  match v with
  | JArr l => S (list_sum (map size l))
  | JObj l => S (list_sum (map (fun kv => size kv.2) l))
  | _ => 0
  end.

Definition is_null (v : json) : bool :=
  match v with
  | JNull => true
  | _ => false
  end.

(** The names in [names] for which [classes_seen.get] returns [None]. *)
Fixpoint unseen (seen : cache) (names : list string) : nat :=
  match names with
  | [] => 0
  | k :: names' =>
      (if is_null (default JNull (seen !! k)) then 1 else 0) + unseen seen names'
  end.

(** [grows seen seen']: every name met in [seen] is still met in [seen']. *)
Definition grows (seen seen' : cache) : Prop :=
  forall k, is_null (default JNull (seen' !! k)) = true ->
            is_null (default JNull (seen !! k)) = true.

(** The budget that is always enough. *)
Definition fuel_for (schema : json) : nat :=
  S (S (length (definition_names schema)) * S (size schema)).

(** The translator as a total function. *)
Definition translate (schema : json) : result json :=
  _spark_schema (fuel_for schema) schema.

(** ** Runs *)

(** [hoare P m Q E]: from a cache that satisfies [P], the computation [m]
    returns a value and a cache related by [Q], or raises an exception in
    [E]. *)
Definition hoare {A} (P : cache -> Prop) (m : M A) (Q : A -> cache -> Prop)
    (E : exn -> Prop) : Prop :=
  forall seen, P seen ->
    match m seen with
    | Ok (a, seen') => Q a seen'
    | Err e => E e
    end.

(** The exceptions of Python, as opposed to the end of the budget. *)
Definition python_exn (e : exn) : Prop := e <> OutOfFuel.

(** The operations on Python values raise Python exceptions only. *)
Definition pure {A} (r : result A) : Prop := forall e, r = Err e -> python_exn e.

(** What a call that stays within its budget does to the cache. *)
Definition safe_run {A} (seen : cache) (r : result (A * cache)) : Prop :=
  match r with
  | Ok (_, seen') => grows seen seen'
  | Err e => python_exn e
  end.

(** [m2] reproduces every run of [m1] that stays within its budget. *)
Definition refines {A} (m1 m2 : M A) : Prop :=
  forall seen, m1 seen <> Err OutOfFuel -> m2 seen = m1 seen.

Definition same_run {A} (m1 m2 : M A) : Prop := forall seen, m1 seen = m2 seen.

(** ** Example schemas *)

Definition people_schema : json :=
  JObj [("title", JStr "Person");
        ("properties",
         JObj [("id", JObj [("type", JStr "integer")]);
               ("name", JObj [("type", JStr "string")])]);
        ("required", JArr [JStr "id"])].

Definition untitled_schema : json :=
  JObj [("properties", JObj [("flag", JObj [("type", JStr "boolean")])])].


Definition defaults_schema : json :=
  JObj [("title", JStr "Settings");
        ("properties",
         JObj [("tags", JObj [("type", JStr "array");
                              ("items", JObj [("type", JStr "string")]);
                              ("default", JArr [])]);
               ("level", JObj [("anyOf", JArr [JObj [("type", JStr "integer")];
                                               JObj [("type", JStr "string")]]);
                               ("default", JInt 0)])])].

Definition dangling_schema : json :=
  JObj [("title", JStr "Order");
        ("properties",
         JObj [("id", JObj [("type", JStr "integer")]);
               ("customer", JObj [("$ref", JStr "#/definitions/Customer")]);
               ("note", JObj [("type", JStr "string")])]);
        ("definitions", JObj [("Item", JObj [("title", JStr "Item")])])].



(** A definition that refers to itself, referenced once and twice. *)
Definition node_definition : json :=
  JObj [("title", JStr "Node");
        ("properties", JObj [("next", JObj [("$ref", JStr "#/definitions/Node")])])].

Definition node_schema : json :=
  JObj [("title", JStr "List");
        ("properties", JObj [("head", JObj [("$ref", JStr "#/definitions/Node")])]);
        ("definitions", JObj [("Node", node_definition)])].

Definition twice_schema : json :=
  JObj [("title", JStr "Root");
        ("properties",
         JObj [("first", JObj [("$ref", JStr "#/definitions/Node")]);
               ("second", JObj [("$ref", JStr "#/definitions/Node")])]);
        ("definitions", JObj [("Node", node_definition)])].

(** The struct [get_type] resolves [Node] to. *)
Definition node_struct : json :=
  struct_type
    [JObj [("name", JStr "next");
           ("nullable", JBool true);
           ("metadata", JObj [("parentClass", JStr "Node")]);
           ("type", cycle_placeholder)]].

(** A union of two structs that share the field [a]. *)
Definition union_alternatives : json :=
  JArr [JObj [("$ref", JStr "#/definitions/A")];
        JObj [("$ref", JStr "#/definitions/B")]].

Definition union_schema : json :=
  JObj [("title", JStr "Root");
        ("properties", JObj [("u", JObj [("anyOf", union_alternatives)])]);
        ("definitions",
         JObj [("A", JObj [("title", JStr "A");
                           ("properties",
                            JObj [("a", JObj [("type", JStr "string")]);
                                  ("c", JObj [("type", JStr "boolean")])]);
                           ("required", JArr [JStr "a"; JStr "c"])]);
               ("B", JObj [("title", JStr "B");
                           ("properties",
                            JObj [("a", JObj [("type", JStr "string")]);
                                  ("b", JObj [("type", JStr "integer")])])])])].

(** ** Nested descriptors *)

(** The descriptor of a list of lists ... of [d], [n] levels deep. *)
Fixpoint nest_array (n : nat) (d : json) : json :=
  match n with
  | O => d
  | S n' => JObj [("type", JStr "array"); ("items", nest_array n' d)]
  end.

(** ** Shapes, well-formed schemas and further examples *)

(** A schema whose definition [E] is an enumeration over the type [t]. *)
Definition enum_schema (t : json) : json :=
  JObj [("title", JStr "Paint");
        ("properties", JObj [("colour", JObj [("$ref", JStr "#/definitions/E")])]);
        ("definitions",
         JObj [("E", JObj [("title", JStr "E");
                           ("enum", JArr [JInt 1; JInt 2]);
                           ("type", t)])])].

Definition broken_schema : json :=
  JObj [("title", JStr "Order");
        ("properties",
         JObj [("id", JObj [("type", JStr "integer")]);
               ("payload", JObj [("type", JStr "null")]);
               ("customer", JObj [("$ref", JStr "#/definitions/Customer")])])].

(** The entries of a descriptor that the translator reads. *)
Definition descriptor_keys : list string :=
  ["type"; "anyOf"; "format"; "$ref"; "additionalProperties"; "default"; "items"].

Definition primitive_names : list string :=
  ["string"; "double"; "long"; "boolean"; "timestamp"; "date"].

(** The types the translator produces, and the fields of its structs. *)
Inductive spark_type : json -> Prop :=
| spark_primitive s : In s primitive_names -> spark_type (JStr s)
| spark_array tn : spark_type tn -> spark_type (array_type tn)
| spark_map value_type : spark_type value_type -> spark_type (map_type value_type)
| spark_struct fields : Forall spark_field fields -> spark_type (struct_type fields)
| spark_cycle : spark_type cycle_placeholder
with spark_field : json -> Prop :=
| spark_field_intro name nullable metadata ty :
    spark_type ty ->
    spark_field (JObj [("name", JStr name);
                       ("nullable", JBool nullable);
                       ("metadata", JObj metadata);
                       ("type", ty)]).

(** Every cache entry is the marker or a type of this shape. *)
Definition cache_shape (seen : cache) : Prop :=
  forall k v, seen !! k = Some v -> v = JStr "in progress" \/ spark_type v.

(** A descriptor as a schema generator writes it: a dictionary whose [$ref],
    if any, is a str, whose [anyOf], if any, is a list of descriptors, which
    has [items] when it is dispatched as an array, and whose [items] and
    [additionalProperties], if any, are descriptors. *)
Inductive wf_descriptor : json -> Prop :=
| wf_descriptor_intro l :
    (forall r, dict_lookup "$ref" l = Some r -> r = JNull \/ exists s, r = JStr s) ->
    (forall a, dict_lookup "anyOf" l = Some a ->
       exists alts, a = JArr alts /\ Forall wf_descriptor alts) ->
    (forall d, dict_lookup "items" l = Some d -> wf_descriptor d) ->
    (array_branch l -> is_Some (dict_lookup "items" l)) ->
    (forall a, dict_lookup "additionalProperties" l = Some a ->
       a = JNull \/ wf_descriptor a) ->
    wf_descriptor (JObj l).

(** A node with properties: the root, or a definition. *)
Definition wf_node (s : json) : Prop :=
  exists ls, s = JObj ls /\
    (forall p, dict_lookup "properties" ls = Some p ->
       exists items, p = JObj items /\
         Forall (fun kv : string * json => wf_descriptor kv.2) items) /\
    (forall req, dict_lookup "required" ls = Some req -> exists names, req = JArr names).

Definition wf_schema (schema : json) : Prop :=
  wf_node schema /\
  exists defs, definitions_table schema = Some defs /\
    Forall (fun kv : string * json => kv.2 = JNull \/ wf_node kv.2) defs.

(** The three exceptions the translator raises itself. *)
Definition documented (e : exn) : Prop :=
  (exists id, e = RuntimeError (Definition_does_not_exist id)) \/
  (exists t, e = RuntimeError (Unknown_enum_type t)) \/
  (exists t, e = NotImplementedError t).

Definition documented_or_fuel (e : exn) : Prop := e = OutOfFuel \/ documented e.

(** The entries of the schema that the translator reads. *)
Definition schema_keys : list string :=
  ["required"; "properties"; "title"; "definitions"].

(** * Properties *)

(** ** Reasoning about the monad *)

Lemma bind_Ok {A B} (m : M A) (k : A -> M B) seen b seen' :
  bind m k seen = Ok (b, seen') <->
  exists a seen1, m seen = Ok (a, seen1) /\ k a seen1 = Ok (b, seen').
Proof.
  unfold bind. split.
  - destruct (m seen) as [[a seen1]|e]; [eauto | discriminate].
  - intros (a & seen1 & -> & H). exact H.
Qed.

Lemma lift_Ok {A} (r : result A) seen a seen' :
  lift r seen = Ok (a, seen') <-> r = Ok a /\ seen' = seen.
Proof.
  unfold lift. destruct r as [a'|e]; split.
  - intros [= -> ->]. auto.
  - intros [[= ->] ->]. reflexivity.
  - discriminate.
  - intros [[=] _].
Qed.

Lemma ret_Ok {A} (a b : A) seen seen' :
  ret a seen = Ok (b, seen') <-> b = a /\ seen' = seen.
Proof. unfold ret. split; [intros [= -> ->] | intros [-> ->]]; auto. Qed.

(** Decompose the successful runs among the hypotheses into the runs of
    their statements. *)
Ltac split_pairs :=
  repeat match goal with
         | x : (_ * _)%type |- _ => destruct x
         end.

Ltac inv_step :=
  match goal with
  | H : bind _ _ _ = Ok _ |- _ =>
      apply bind_Ok in H; destruct H as (? & ? & ? & H); split_pairs; cbv beta in H
  | H : lift _ _ = Ok _ |- _ => apply lift_Ok in H; destruct H as [? ->]
  | H : ret _ _ = Ok _ |- _ => apply ret_Ok in H; destruct H as [? ?]; simplify_eq
  | H : raise _ _ = Ok _ |- _ => discriminate H
  | H : classes_seen_get _ _ = Ok _ |- _ => unfold classes_seen_get in H; simplify_eq
  | H : classes_seen_set _ _ _ = Ok _ |- _ => unfold classes_seen_set in H; simplify_eq
  end.

Ltac inv_runs := repeat inv_step.

Lemma py_setitem_Ok v k x w :
  py_setitem v k x = Ok w <-> exists l, v = JObj l /\ w = JObj (dict_set k x l).
Proof.
  split.
  - destruct v; try discriminate. intros [= <-]. eauto.
  - intros (l0 & -> & ->). reflexivity.
Qed.

Lemma dict_lookup_set_eq k x l : dict_lookup k (dict_set k x l) = Some x.
Proof.
  induction l as [|[k' v'] l IH]; simpl.
  - rewrite String.eqb_refl. reflexivity.
  - destruct (String.eqb k k') eqn:E; simpl; rewrite ?String.eqb_refl, ?E; auto.
Qed.

Lemma dict_lookup_set_ne k k' x l :
  k <> k' -> dict_lookup k (dict_set k' x l) = dict_lookup k l.
Proof.
  intros Hne. induction l as [|[k0 v0] l IH]; simpl.
  - apply String.eqb_neq in Hne. rewrite Hne. reflexivity.
  - destruct (String.eqb k' k0) eqn:E; simpl.
    + apply String.eqb_eq in E. subst k0.
      apply String.eqb_neq in Hne. rewrite Hne. reflexivity.
    + rewrite IH. reflexivity.
Qed.

(** ** The primitive table (section 4.2 of the specification) *)

Ltac run_get_type :=
  unfold get_type; fold get_type;
  unfold get_type_body, bind, lift, ret, raise, py_get, py_in, py_setitem.



(** ** Exceptions reach the caller

    No call is guarded by a handler: an exception of the first [get_type]
    call for a property is the exception of the loop of [get_fields], and of
    the translation. *)

Lemma get_fields_loop_app gt s required pre rest fields seen :
  get_fields_loop gt s required (pre ++ rest) fields seen =
    match get_fields_loop gt s required pre fields seen with
    | Ok (fields', seen1) => get_fields_loop gt s required rest fields' seen1
    | Err e => Err e
    end.
Proof.
  revert fields seen. induction pre as [|[key value] pre IH]; intros fields seen.
  - reflexivity.
  - cbn [app get_fields_loop]. unfold bind.
    destruct (struct_field gt s required key value seen) as [[field seen1]|e];
      [apply IH | reflexivity].
Qed.



(** ** Unsupported types *)




(** ** The cache of resolved definitions *)

Lemma get_type_ref schema fuel l r seen :
  dict_lookup "$ref" l = Some (JStr r) ->
  get_type schema (S fuel) (JObj l) seen =
    let class_name := remove_all "#/definitions/" 0 r in
    let metadata := carried_default l in
    match default JNull (seen !! class_name) with
    | JNull =>
        match get_type_of_definition (get_fields_body (get_type schema fuel))
                (JStr r) schema (<[class_name := JStr "in progress"]> seen) with
        | Ok (spark_type, seen') =>
            Ok (spark_type, metadata, <[class_name := spark_type]> seen')
        | Err e => Err e
        end
    | cached =>
        if py_eq_str cached "in progress"
        then Ok (cycle_placeholder, metadata, <[class_name := cycle_placeholder]> seen)
        else Ok (cached, metadata, seen)
    end.
Proof.
  intros Hr. run_get_type. rewrite Hr. simpl.
  destruct (truthy (default JNull (dict_lookup "type" l)));
    simpl; unfold classes_seen_get, classes_seen_set, carried_default;
    destruct (default JNull (seen !! remove_all "#/definitions/" 0 r))
      as [| | | |s| |] eqn:E;
    try reflexivity; simpl;
    try (destruct (String.eqb s "in progress")); rewrite ?E; reflexivity.
Qed.

(** C7, as stated, fails: the cycle of [Node] is detected while [first] is
    resolved, yet the later reference [second] does not get the placeholder:
    it gets the finished struct, which replaced the placeholder in the cache
    when the resolution of [Node] returned. *)
Lemma later_reference_not_placeholder :
  _spark_schema 2 twice_schema =
    Ok (JObj [("fields",
               JArr [JObj [("name", JStr "first");
                           ("nullable", JBool true);
                           ("metadata", JObj [("parentClass", JStr "Root")]);
                           ("type", node_struct)];
                     JObj [("name", JStr "second");
                           ("nullable", JBool true);
                           ("metadata", JObj [("parentClass", JStr "Root")]);
                           ("type", node_struct)]]);
              ("type", JStr "struct")]) /\
  node_struct <> cycle_placeholder.
Proof. split; [vm_compute; reflexivity | discriminate]. Qed.

(** C7, amended: a reference to a name that is in progress returns the
    cycle placeholder and stores it under that name; a reference to a name
    whose cache entry is a resolved type (the placeholder included) returns
    that entry and leaves the cache alone; and when the first reference to a
    name returns, the type it resolved is what the cache holds for the name,
    whatever was stored in between. *)
Theorem cache_protocol (schema : json) (fuel : nat) (seen : cache)
    (l : list (string * json)) (name : string) (Hname : ref_to l name) :
  let run := get_type schema (S fuel) (JObj l) seen in
  (seen !! name = Some (JStr "in progress") ->
   run = Ok (cycle_placeholder, carried_default l, <[name := cycle_placeholder]> seen)) /\
  (forall cached, seen !! name = Some cached ->
     cached <> JNull -> cached <> JStr "in progress" ->
     run = Ok (cached, carried_default l, seen)) /\
  (forall spark_type metadata seen', seen !! name = None ->
     run = Ok (spark_type, metadata, seen') ->
     seen' !! name = Some spark_type).
Proof.
  destruct Hname as (r & Hr & ->). cbv zeta.
  rewrite (get_type_ref _ _ _ _ _ Hr). cbv zeta. repeat split.
  - intros ->. reflexivity.
  - intros cached -> Hnull Hprog. simpl.
    destruct cached as [| | | |s| |]; try reflexivity; try congruence.
    simpl. destruct (String.eqb_spec s "in progress"); [congruence | reflexivity].
  - intros spark_type metadata seen' ->. simpl.
    destruct (get_type_of_definition _ _ _ _) as [[ty seen1]|e]; [|discriminate].
    intros [= <- _ <-]. apply lookup_insert_eq.
Qed.

Lemma cache_protocol_witness :
  get_type twice_schema 1 (JObj [("$ref", JStr "#/definitions/Node")])
      {["Node" := JStr "in progress"]}
    = Ok (cycle_placeholder, JObj [],
          <["Node" := cycle_placeholder]> {["Node" := JStr "in progress"]}) /\
  get_type twice_schema 1 (JObj [("$ref", JStr "#/definitions/Node")])
      {["Node" := cycle_placeholder]}
    = Ok (cycle_placeholder, JObj [], {["Node" := cycle_placeholder]}) /\
  (<["Node" := node_struct]> (<["Node" := cycle_placeholder]> {["Node" := JStr "in progress"]})
     : cache) !! "Node" = Some node_struct.
Proof.
  assert (Hname : ref_to [("$ref", JStr "#/definitions/Node")] "Node")
    by (exists "#/definitions/Node"; split; reflexivity).
  split; [|split].
  - exact (proj1 (cache_protocol twice_schema 0
                    {["Node" := JStr "in progress"]} _ _ Hname) eq_refl).
  - refine (proj1 (proj2 (cache_protocol twice_schema 0
                            {["Node" := cycle_placeholder]} _ _ Hname)) _ eq_refl _ _);
      discriminate.
  - refine (proj2 (proj2 (cache_protocol twice_schema 1 ∅ _ _ Hname)) _ (JObj []) _ eq_refl _).
    vm_compute. reflexivity.
Defined.

(** ** The field builder *)

Lemma struct_field_Ok gt s required key value seen field seen' :
  struct_field gt s required key value seen = Ok (field, seen') ->
  is_struct_field s key field.
Proof.
  unfold struct_field. intros H. inv_runs.
  match goal with
  | H : py_setitem _ _ _ = Ok _ |- _ => apply py_setitem_Ok in H as (md & -> & ->)
  end.
  do 4 eexists.
  split; [eassumption|]. split; [apply dict_lookup_set_eq|]. split; [|reflexivity].
  intros Hd.
    match goal with
    | H : py_in "default" _ = Ok ?b |- _ =>
        simpl in H; injection H as <-
    end.
    rewrite bool_decide_eq_true_2 in * by exact Hd.
    inv_runs. reflexivity.
Qed.

(** The loop appends one field per property, in the order of [items]. *)
Lemma get_fields_loop_Ok gt s required items fields seen out seen' :
  get_fields_loop gt s required items fields seen = Ok (out, seen') ->
  exists new, out = fields ++ new /\
    Forall2 (fun kv field => is_struct_field s kv.1 field) items new.
Proof.
  revert fields seen.
  induction items as [|[key value] items IH]; cbn [get_fields_loop]; intros fields seen H.
  - inv_runs. exists []. rewrite app_nil_r. split; constructor.
  - apply bind_Ok in H as (a & seen1 & Hrun & Hrun0).
    apply struct_field_Ok in Hrun. apply IH in Hrun0 as (new & -> & Hnew).
    exists (a :: new). rewrite <- app_assoc. split; [reflexivity | constructor; assumption].
Qed.

Lemma get_fields_body_Ok gt s seen fields seen' :
  get_fields_body gt s seen = Ok (fields, seen') ->
  exists items,
    py_get s "properties" (JObj []) = Ok (JObj items) /\
    Forall2 (fun kv field => is_struct_field s kv.1 field) items fields.
Proof.
  unfold get_fields_body. intros H. inv_runs.
  match goal with
  | H : py_items ?p = Ok _ |- _ => destruct p; try discriminate H; injection H as <-
  end.
  match goal with
  | H : get_fields_loop _ _ _ _ _ _ = Ok _ |- _ =>
      apply get_fields_loop_Ok in H as (new & -> & Hnew)
  end.
  eauto.
Qed.



Lemma get_type_of_definition_Ok gf ref schema seen ty seen' :
  get_type_of_definition gf ref schema seen = Ok (ty, seen') ->
  exists d, get_definition ref schema = Ok d /\
    ((ty = JStr "string" \/ ty = JStr "double" \/ ty = JStr "long") /\ seen' = seen \/
     exists fields, gf d seen = Ok (fields, seen') /\
       ty = JObj [("type", JStr "struct"); ("fields", JArr fields)]).
Proof.
  unfold get_type_of_definition. intros H. inv_runs.
  eexists. split; [eassumption|].
  match goal with
  | H : (if ?b then _ else _) _ = _ |- _ => destruct b
  end; inv_runs.
  - left.
    repeat match goal with
           | H : (if ?b then _ else _) _ = _ |- _ => destruct b
           end; inv_runs; auto.
  - right. eauto.
Qed.



(** ** The parent class *)

Lemma is_struct_field_parent s key field :
  is_struct_field s key field ->
  exists title, py_get s "title" JNull = Ok title /\ parent_class_of field = Ok title.
Proof.
  intros (title & ? & md & ? & Ht & Hp & _ & ->). exists title. split; [exact Ht|].
  unfold parent_class_of. simpl. rewrite Hp. reflexivity.
Qed.

(** C10: every field [get_fields] returns for a node, the root or a
    referenced definition, has a [parentClass] entry in its metadata, whose
    value is the node's [title]; for a node without title the entry is there
    with the value [None]. *)
Theorem fields_carry_parent_class (schema : json) (fuel : nat) (s : json) (seen : cache)
    (fields : list json) (seen' : cache)
    (Hrun : get_fields schema fuel s seen = Ok (fields, seen')) :
  exists l, s = JObj l /\
    Forall (fun field => parent_class_of field = Ok (default JNull (dict_lookup "title" l)))
      fields /\
    (dict_lookup "title" l = None ->
     Forall (fun field => parent_class_of field = Ok JNull) fields).
Proof.
  apply get_fields_body_Ok in Hrun as (items & Hp & Hf).
  destruct s as [| | | | | |l]; try discriminate Hp. exists l. split; [reflexivity|].
  assert (H : Forall (fun field =>
             parent_class_of field = Ok (default JNull (dict_lookup "title" l))) fields).
  { clear Hp. induction Hf as [|kv field items fields Hfield _ IH]; constructor; [|exact IH].
    apply is_struct_field_parent in Hfield as (title & [= <-] & Hpc). exact Hpc. }
  split; [exact H|]. intros Hnone. rewrite Hnone in H. exact H.
Qed.

Lemma fields_carry_parent_class_witness :
  exists l, untitled_schema = JObj l /\
    Forall (fun field => parent_class_of field = Ok (default JNull (dict_lookup "title" l)))
      [JObj [("name", JStr "flag"); ("nullable", JBool true);
             ("metadata", JObj [("parentClass", JNull)]); ("type", JStr "boolean")]] /\
    (dict_lookup "title" l = None ->
     Forall (fun field => parent_class_of field = Ok JNull)
       [JObj [("name", JStr "flag"); ("nullable", JBool true);
              ("metadata", JObj [("parentClass", JNull)]); ("type", JStr "boolean")]]).
Proof.
  refine (fields_carry_parent_class untitled_schema 1 untitled_schema ∅ _ ∅ _).
  vm_compute. reflexivity.
Defined.

(** ** Defaults and nullability *)

Lemma get_type_no_ref schema fuel l seen :
  no_ref l ->
  get_type schema (S fuel) (JObj l) seen = typed_branch (get_type schema fuel) l seen.
Proof.
  unfold no_ref. intros Href.
  unfold get_type; fold get_type. unfold get_type_body, typed_branch, effective_type.
  unfold bind at 1. cbn [lift py_get]. unfold bind at 1.
  destruct (truthy (default JNull (dict_lookup "type" l))); cbn [ret bind lift py_get py_in];
    rewrite Href; reflexivity.
Qed.

Lemma get_type_bad_ref schema fuel l r seen :
  dict_lookup "$ref" l = Some r -> r <> JNull -> (forall s, r <> JStr s) ->
  get_type schema (S fuel) (JObj l) seen = Err AttributeError.
Proof.
  intros Hr Hnull Hstr. run_get_type. rewrite Hr. simpl.
  destruct (truthy (default JNull (dict_lookup "type" l))); simpl;
    destruct r; try reflexivity; try congruence.
  all: exfalso; eapply Hstr; reflexivity.
Qed.

Lemma carried_default_has l :
  is_Some (dict_lookup "default" l) ->
  exists m, carried_default l = JObj m /\ is_Some (dict_lookup "default" m).
Proof.
  intros Hd. unfold carried_default. rewrite bool_decide_eq_true_2 by exact Hd.
  eexists. split; [reflexivity|]. simpl. eauto.
Qed.

Lemma typed_branch_keeps_default gt l seen spark_type metadata seen' :
  is_Some (dict_lookup "default" l) ->
  py_eq_str (effective_type l) "array" = false ->
  typed_branch gt l seen = Ok (spark_type, metadata, seen') ->
  exists m, metadata = JObj m /\ is_Some (dict_lookup "default" m).
Proof.
  intros Hd Harr H. destruct (carried_default_has l Hd) as (m & Hm & Hdm).
  unfold typed_branch in H. rewrite Harr, Hm in H.
  repeat match type of H with
         | (if ?b then _ else _) _ = _ => destruct b
         end; inv_runs; eauto.
  match goal with
  | H : py_setitem _ _ _ = Ok _ |- _ => simpl in H; injection H as <-
  end.
  eexists. split; [reflexivity|]. rewrite dict_lookup_set_ne by discriminate. exact Hdm.
Qed.

Lemma get_type_keeps_default schema fuel l seen spark_type metadata seen' :
  is_Some (dict_lookup "default" l) ->
  ~ array_branch l ->
  get_type schema fuel (JObj l) seen = Ok (spark_type, metadata, seen') ->
  exists m, metadata = JObj m /\ is_Some (dict_lookup "default" m).
Proof.
  intros Hd Harr H. destruct fuel as [|fuel]; [discriminate H|].
  assert (Hno : no_ref l -> exists m, metadata = JObj m /\ is_Some (dict_lookup "default" m)).
  { intros Href. rewrite get_type_no_ref in H by exact Href.
    eapply typed_branch_keeps_default; [exact Hd | | exact H].
    destruct (py_eq_str (effective_type l) "array") eqn:E; [|reflexivity].
    exfalso. apply Harr. split; assumption. }
  destruct (carried_default_has l Hd) as (m & Hm & Hdm).
  destruct (dict_lookup "$ref" l) as [r|] eqn:Er.
  - destruct r as [| | | |r| |];
      try (rewrite (get_type_bad_ref _ _ _ _ _ Er) in H by congruence; discriminate H).
    + apply Hno. unfold no_ref. rewrite Er. reflexivity.
    + rewrite (get_type_ref _ _ _ _ _ Er) in H. cbv zeta in H. rewrite Hm in H.
      destruct (default JNull _) in H; simpl in H;
        try destruct (get_type_of_definition _ _ _ _) as [[? ?]|?];
        try destruct (String.eqb _ _); simplify_eq; eauto.
  - apply Hno. unfold no_ref. rewrite Er. reflexivity.
Qed.

(** C4, as stated, fails for two of the five shapes: an array property with
    a default and a union property with a default both come out nullable. *)
Lemma array_and_union_defaults_nullable :
  _spark_schema 2 defaults_schema =
    Ok (JObj [("fields",
               JArr [JObj [("name", JStr "tags");
                           ("nullable", JBool true);
                           ("metadata", JObj [("parentClass", JStr "Settings")]);
                           ("type", array_type (JStr "string"))];
                     JObj [("name", JStr "level");
                           ("nullable", JBool true);
                           ("metadata", JObj [("parentClass", JStr "Settings")]);
                           ("type", JStr "long")]]);
              ("type", JStr "struct")]).
Proof. vm_compute. reflexivity. Qed.

(** C4, amended: a property whose descriptor has a [default] key, is not a
    union (no non-empty [anyOf]) and is not resolved by the array branch,
    that is a primitive, a [$ref] or an object, yields a field with
    [nullable] false, whatever [required] is. *)
Theorem default_not_nullable (schema : json) (fuel : nat) (s required : json)
    (key : string) (l : list (string * json)) (seen : cache) (field : json) (seen' : cache)
    (Hdefault : is_Some (dict_lookup "default" l))
    (Hunion : union_property l = false)
    (Harray : ~ array_branch l)
    (Hrun : struct_field (get_type schema fuel) s required key (JObj l) seen
              = Ok (field, seen')) :
  py_getitem field "nullable" = Ok (JBool false).
Proof.
  pose proof (struct_field_Ok _ _ _ _ _ _ _ _ Hrun)
    as (title & nullable & md & ty & _ & _ & Hnull & ->).
  simpl. f_equal. f_equal. apply Hnull.
  unfold struct_field in Hrun. inv_runs.
  match goal with
  | H : py_get (JObj l) "anyOf" JNull = Ok _ |- _ => simpl in H; injection H as <-
  end.
  unfold union_property in Hunion. rewrite Hunion in *.
  match goal with
  | H : get_type _ _ _ _ = Ok _ |- _ =>
      apply get_type_keeps_default in H as (m & -> & Hm); [| assumption | assumption]
  end.
  match goal with
  | H : py_setitem _ _ _ = Ok _ |- _ => simpl in H; simplify_eq
  end.
  rewrite dict_lookup_set_ne by discriminate. exact Hm.
Qed.

Lemma default_not_nullable_witness :
  py_getitem
    (JObj [("name", JStr "port"); ("nullable", JBool false);
           ("metadata", JObj [("default", JInt 80); ("parentClass", JNull)]);
           ("type", JStr "long")])
    "nullable" = Ok (JBool false).
Proof.
  refine (default_not_nullable JNull 1 (JObj []) (JArr []) "port"
            [("type", JStr "integer"); ("default", JInt 80)] ∅ _ ∅ _ _ _ _).
  - simpl. eauto.
  - reflexivity.
  - intros [_ H]. vm_compute in H. discriminate H.
  - vm_compute. reflexivity.
Defined.

(** ** Congruence

    The translator is built from [bind] and from the operations on Python
    values; a relation between computations that [bind] respects is
    therefore carried from the recursive calls to the whole of [get_type].
    Two instances are used below: agreement of a run with a run on a larger
    budget, and equality of the runs on two schemas with the same
    definitions. *)

Section Congruence.

Variable R : forall A : Type, M A -> M A -> Prop.
Hypothesis R_refl : forall A (m : M A), R A m m.
Hypothesis R_bind : forall A B (m1 m2 : M A) (k1 k2 : A -> M B),
  R A m1 m2 -> (forall a, R B (k1 a) (k2 a)) -> R B (bind m1 k1) (bind m2 k2).

Variables schema1 schema2 : json.
Hypothesis same_definitions :
  forall ref, get_definition ref schema1 = get_definition ref schema2.

Variables gt1 gt2 : json -> M (json * json).
Hypothesis R_gt : forall v, R _ (gt1 v) (gt2 v).

Ltac congr_step :=
  first
    [ apply R_refl
    | apply R_gt
    | apply R_bind; [| let a := fresh "a" in intros a; cbv beta; split_pairs]
    | match goal with
      | |- R _ (if ?b then _ else _) (if ?b then _ else _) => destruct b
      | |- R _ (match ?x with _ => _ end) (match ?x with _ => _ end) => destruct x
      end ].

Lemma collect_subtypes_congr alts groups last :
  R _ (collect_subtypes gt1 alts groups last) (collect_subtypes gt2 alts groups last).
Proof.
  revert groups last. induction alts as [|v alts IH]; intros groups last;
    cbn [collect_subtypes]; repeat congr_step. apply IH.
Qed.

Lemma merge_union_congr p_class anyof first :
  R _ (merge_union gt1 p_class anyof first) (merge_union gt2 p_class anyof first).
Proof.
  unfold merge_union. repeat first [apply collect_subtypes_congr | congr_step].
Qed.

Lemma struct_field_congr s required key value :
  R _ (struct_field gt1 s required key value) (struct_field gt2 s required key value).
Proof.
  unfold struct_field. repeat first [apply merge_union_congr | congr_step].
Qed.

Lemma get_fields_loop_congr s required items fields :
  R _ (get_fields_loop gt1 s required items fields)
      (get_fields_loop gt2 s required items fields).
Proof.
  revert fields. induction items as [|[key value] items IH]; intros fields;
    cbn [get_fields_loop]; [apply R_refl|].
  apply R_bind; [apply struct_field_congr | intros field; apply IH].
Qed.

Lemma get_fields_body_congr s :
  R _ (get_fields_body gt1 s) (get_fields_body gt2 s).
Proof.
  unfold get_fields_body. repeat first [apply get_fields_loop_congr | congr_step].
Qed.

Lemma get_type_of_definition_congr ref :
  R _ (get_type_of_definition (get_fields_body gt1) ref schema1)
      (get_type_of_definition (get_fields_body gt2) ref schema2).
Proof.
  unfold get_type_of_definition. rewrite same_definitions.
  repeat first [apply get_fields_body_congr | congr_step].
Qed.

Lemma get_type_body_congr value :
  R _ (get_type_body schema1 gt1 (get_fields_body gt1) value)
      (get_type_body schema2 gt2 (get_fields_body gt2) value).
Proof.
  unfold get_type_body. repeat first [apply get_type_of_definition_congr | congr_step].
Qed.

End Congruence.

(** *** A larger budget

    A run that does not exhaust its budget is reproduced by any run with a
    larger one. *)

Lemma refines_refl A (m : M A) : refines m m.
Proof. intros seen _. reflexivity. Qed.

Lemma refines_bind A B (m1 m2 : M A) (k1 k2 : A -> M B) :
  refines m1 m2 -> (forall a, refines (k1 a) (k2 a)) ->
  refines (bind m1 k1) (bind m2 k2).
Proof.
  intros Hm Hk seen. unfold bind. intros H.
  rewrite Hm by (intros E; rewrite E in H; apply H; reflexivity).
  destruct (m1 seen) as [[a seen1]|e]; [|reflexivity].
  apply Hk. exact H.
Qed.

Lemma get_type_refines schema n m value :
  n <= m -> refines (get_type schema n value) (get_type schema m value).
Proof.
  revert m value. induction n as [|n IH]; intros m value Hle.
  - intros seen H. exfalso. apply H. reflexivity.
  - destruct m as [|m]; [lia|]. cbn [get_type].
    apply (get_type_body_congr (@refines) refines_refl refines_bind); [reflexivity|].
    intros v. apply IH. lia.
Qed.

Lemma spark_schema_refines n m schema :
  n <= m -> _spark_schema n schema <> Err OutOfFuel ->
  _spark_schema m schema = _spark_schema n schema.
Proof.
  intros Hle H. unfold _spark_schema, get_fields in *.
  assert (Hr : refines (get_fields_body (get_type schema n) schema)
                       (get_fields_body (get_type schema m) schema)).
  { apply (get_fields_body_congr (@refines) refines_refl refines_bind).
    intros v. apply get_type_refines. exact Hle. }
  rewrite Hr; [reflexivity|].
  intros E. rewrite E in H. apply H. reflexivity.
Qed.

(** *** The same definitions

    [get_type] reads the schema only through [get_definition]. *)

Lemma same_run_refl A (m : M A) : same_run m m.
Proof. intros seen. reflexivity. Qed.

Lemma same_run_bind A B (m1 m2 : M A) (k1 k2 : A -> M B) :
  same_run m1 m2 -> (forall a, same_run (k1 a) (k2 a)) ->
  same_run (bind m1 k1) (bind m2 k2).
Proof.
  intros Hm Hk seen. unfold bind. rewrite Hm.
  destruct (m2 seen) as [[a seen1]|e]; [apply Hk | reflexivity].
Qed.

Lemma get_type_same_definitions schema1 schema2 :
  (forall ref, get_definition ref schema1 = get_definition ref schema2) ->
  forall fuel value, same_run (get_type schema1 fuel value) (get_type schema2 fuel value).
Proof.
  intros Hdef fuel. induction fuel as [|fuel IH]; intros value.
  - intros seen. reflexivity.
  - cbn [get_type].
    apply (get_type_body_congr (@same_run) same_run_refl same_run_bind);
      assumption.
Qed.

(** ** Schemas without properties or without a required list *)

Lemma dict_lookup_app_ne k k' v l :
  k <> k' -> dict_lookup k (l ++ [(k', v)]) = dict_lookup k l.
Proof.
  intros Hne. induction l as [|[k0 v0] l IH]; simpl.
  - apply String.eqb_neq in Hne. rewrite Hne. reflexivity.
  - rewrite IH. reflexivity.
Qed.

Lemma dict_lookup_app_new k v l :
  dict_lookup k l = None -> dict_lookup k (l ++ [(k, v)]) = Some v.
Proof.
  induction l as [|[k0 v0] l IH]; simpl.
  - rewrite String.eqb_refl. reflexivity.
  - destruct (String.eqb k k0); [discriminate | exact IH].
Qed.

(** [get_fields] reads three entries of the node. *)
Lemma get_fields_body_same_node gt s1 s2 :
  py_get s1 "required" (JArr []) = py_get s2 "required" (JArr []) ->
  py_get s1 "properties" (JObj []) = py_get s2 "properties" (JObj []) ->
  py_get s1 "title" JNull = py_get s2 "title" JNull ->
  same_run (get_fields_body gt s1) (get_fields_body gt s2).
Proof.
  intros Hreq Hprop Htitle. unfold get_fields_body. rewrite Hreq, Hprop.
  apply same_run_bind; [apply same_run_refl | intros required].
  apply same_run_bind; [apply same_run_refl | intros properties].
  apply same_run_bind; [apply same_run_refl | intros items].
  generalize (@nil json) as fields.
  induction items as [|[key value] items IH]; intros fields; [apply same_run_refl|].
  cbn [get_fields_loop]. apply same_run_bind; [|intros field; apply IH].
  unfold struct_field. rewrite Htitle. apply same_run_refl.
Qed.

(** C9: a schema without a [properties] entry, or with an empty one, is
    translated to the struct without fields, on any budget and without an
    exception; and a schema without a [required] entry is translated as the
    same schema with the entry [required: []]. *)
Theorem schema_defaults (fuel : nat) (l : list (string * json)) :
  (dict_lookup "properties" l = None \/ dict_lookup "properties" l = Some (JObj []) ->
   _spark_schema fuel (JObj l) = Ok empty_struct) /\
  (dict_lookup "required" l = None ->
   _spark_schema fuel (JObj l) = _spark_schema fuel (JObj (l ++ [("required", JArr [])]))).
Proof.
  split.
  - intros H. unfold _spark_schema, get_fields, get_fields_body, bind, lift, py_get.
    destruct H as [-> | ->]; reflexivity.
  - intros Hreq. unfold _spark_schema, get_fields.
    set (schema' := JObj (l ++ [("required", JArr [])])).
    assert (Hdef : forall ref, get_definition ref (JObj l) = get_definition ref schema').
    { intros ref. unfold get_definition, schema', py_get.
      rewrite dict_lookup_app_ne by discriminate. reflexivity. }
    assert (Hbody : get_fields_body (get_type (JObj l) fuel) (JObj l) ∅
                    = get_fields_body (get_type schema' fuel) schema' ∅).
    { transitivity (get_fields_body (get_type (JObj l) fuel) schema' ∅).
      - apply get_fields_body_same_node; unfold schema', py_get.
        + rewrite dict_lookup_app_new by exact Hreq. rewrite Hreq. reflexivity.
        + rewrite dict_lookup_app_ne by discriminate. reflexivity.
        + rewrite dict_lookup_app_ne by discriminate. reflexivity.
      - apply (get_fields_body_congr (@same_run) same_run_refl same_run_bind).
        apply get_type_same_definitions. exact Hdef. }
    rewrite Hbody. reflexivity.
Qed.

Lemma schema_defaults_witness :
  _spark_schema 0 (JObj [("title", JStr "Empty")]) = Ok empty_struct /\
  _spark_schema 0 (JObj [("title", JStr "Empty"); ("properties", JObj [])])
    = Ok empty_struct /\
  _spark_schema 1 (JObj [("properties", JObj [("flag", JObj [("type", JStr "boolean")])])])
    = _spark_schema 1
        (JObj ([("properties", JObj [("flag", JObj [("type", JStr "boolean")])])]
               ++ [("required", JArr [])])).
Proof.
  split; [|split].
  - exact (proj1 (schema_defaults 0 [("title", JStr "Empty")]) (or_introl eq_refl)).
  - exact (proj1 (schema_defaults 0 [("title", JStr "Empty"); ("properties", JObj [])])
             (or_intror eq_refl)).
  - exact (proj2 (schema_defaults 1
             [("properties", JObj [("flag", JObj [("type", JStr "boolean")])])]) eq_refl).
Defined.

(** ** A program logic for the translator *)

Section Rules.

Context {A B : Type}.
Implicit Types (P : cache -> Prop) (E : exn -> Prop).

Lemma hoare_ret P (a : A) (Q : A -> cache -> Prop) E :
  (forall seen, P seen -> Q a seen) -> hoare P (ret a) Q E.
Proof. intros H seen HP. apply H. exact HP. Qed.

Lemma hoare_raise P e (Q : A -> cache -> Prop) E :
  E e -> hoare P (raise e) Q E.
Proof. intros H seen _. exact H. Qed.

Lemma hoare_bind P (m : M A) (k : A -> M B) (R : A -> cache -> Prop)
    (Q : B -> cache -> Prop) E :
  hoare P m R E -> (forall a, hoare (R a) (k a) Q E) -> hoare P (bind m k) Q E.
Proof.
  intros Hm Hk seen HP. unfold bind. specialize (Hm seen HP).
  destruct (m seen) as [[a seen1]|e]; [apply Hk; exact Hm | exact Hm].
Qed.

Lemma hoare_bind_lift P (r : result A) (k : A -> M B) (Q : B -> cache -> Prop) E :
  (forall e, r = Err e -> E e) ->
  (forall a, r = Ok a -> hoare P (k a) Q E) ->
  hoare P (bind (lift r) k) Q E.
Proof.
  intros He Hk seen HP. unfold bind, lift.
  destruct r as [a|e]; [apply Hk; auto | apply He; reflexivity].
Qed.

Lemma hoare_conseq P P' (m : M A) (Q Q' : A -> cache -> Prop) E E' :
  hoare P m Q E ->
  (forall seen, P' seen -> P seen) ->
  (forall a seen, Q a seen -> Q' a seen) ->
  (forall e, E e -> E' e) ->
  hoare P' m Q' E'.
Proof.
  intros H HP HQ HE seen HP'. specialize (H seen (HP seen HP')).
  destruct (m seen) as [[a seen1]|e]; auto.
Qed.

End Rules.

Lemma pure_Ok {A} (a : A) : pure (Ok a).
Proof. intros e [=]. Qed.

Lemma pure_rbind {A B} (r : result A) (k : A -> result B) :
  pure r -> (forall a, pure (k a)) -> pure (rbind r k).
Proof.
  intros Hr Hk. destruct r as [a|e]; simpl; [apply Hk|].
  intros e' [= <-]. apply (Hr e). reflexivity.
Qed.

Ltac pure_cases :=
  intros e; unfold python_exn;
  repeat match goal with
         | |- context [match ?x with _ => _ end] => destruct x
         end; congruence.

Lemma pure_py_get v k dflt : pure (py_get v k dflt).
Proof. unfold py_get. pure_cases. Qed.
Lemma pure_py_getitem v k : pure (py_getitem v k).
Proof. unfold py_getitem. pure_cases. Qed.
Lemma pure_py_setitem v k x : pure (py_setitem v k x).
Proof. unfold py_setitem. pure_cases. Qed.
Lemma pure_py_items v : pure (py_items v).
Proof. unfold py_items. pure_cases. Qed.
Lemma pure_py_in k v : pure (py_in k v).
Proof. unfold py_in. pure_cases. Qed.
Lemma pure_py_iter v : pure (py_iter v).
Proof. unfold py_iter. pure_cases. Qed.
Lemma pure_py_getitem0 v : pure (py_getitem0 v).
Proof. unfold py_getitem0. pure_cases. Qed.
Lemma pure_strip_definitions r : pure (strip_definitions r).
Proof. unfold strip_definitions. pure_cases. Qed.

Lemma pure_get_definition ref schema : pure (get_definition ref schema).
Proof.
  unfold get_definition.
  apply pure_rbind; [apply pure_strip_definitions | intros id].
  apply pure_rbind; [apply pure_py_get | intros defs].
  apply pure_rbind; [apply pure_py_get | intros d].
  destruct d; intros ? ?; unfold python_exn; congruence.
Qed.

Lemma pure_group_fields fields groups : pure (group_fields fields groups).
Proof.
  revert groups. induction fields as [|field fields IH]; intros groups; simpl.
  - apply pure_Ok.
  - apply pure_rbind; [apply pure_py_getitem | intros name].
    destruct name; try (intros ? ?; unfold python_exn; congruence). apply IH.
Qed.

Lemma pure_all_nullable subfields : pure (all_nullable subfields).
Proof.
  induction subfields as [|field subfields IH]; simpl; [apply pure_Ok|].
  apply pure_rbind; [apply pure_py_getitem | intros n].
  destruct (truthy n); [exact IH | apply pure_Ok].
Qed.

Lemma pure_merge_field p_class len subfields : pure (merge_field p_class len subfields).
Proof.
  unfold merge_field. destruct subfields as [|first_field rest].
  - intros ? ?; unfold python_exn; congruence.
  - apply pure_rbind; [destruct (Nat.eqb _ _); [apply pure_all_nullable | apply pure_Ok]|].
    intros nullable.
    apply pure_rbind; [apply pure_py_setitem | intros ff].
    apply pure_rbind; [apply pure_py_getitem | intros md].
    apply pure_rbind; [apply pure_py_setitem | intros md'].
    apply pure_py_setitem.
Qed.

Lemma pure_merge_groups p_class len groups : pure (merge_groups p_class len groups).
Proof.
  induction groups as [|[name subfields] groups IH]; simpl; [apply pure_Ok|].
  apply pure_rbind; [apply pure_merge_field | intros ff].
  apply pure_rbind; [exact IH | intros unique]. apply pure_Ok.
Qed.

Create HintDb pure_ops.
#[local] Hint Resolve pure_py_get pure_py_getitem pure_py_setitem pure_py_items
  pure_py_in pure_py_iter pure_py_getitem0 pure_strip_definitions
  pure_get_definition pure_group_fields pure_merge_groups : pure_ops.

(** ** What the cache holds *)

Lemma get_definition_str r schema :
  get_definition (JStr r) schema = definition_of schema (remove_all "#/definitions/" 0 r).
Proof. reflexivity. Qed.

Lemma cache_inv_empty schema : cache_inv schema ∅.
Proof. intros k v H. rewrite lookup_empty in H. discriminate H. Qed.

Lemma cache_inv_insert schema seen k v :
  cache_inv schema seen -> resolved v -> defined schema k ->
  cache_inv schema (<[k := v]> seen).
Proof.
  intros Hinv Hv Hk k' v' H. destruct (decide (k = k')) as [<-|Hne].
  - rewrite lookup_insert_eq in H. injection H as <-. auto.
  - rewrite lookup_insert_ne in H by exact Hne. eauto.
Qed.

Lemma resolved_in_progress : resolved (JStr "in progress").
Proof. split; discriminate. Qed.

Lemma resolved_placeholder : resolved cycle_placeholder.
Proof. split; discriminate. Qed.

Section Invariant.

Variable schema : json.
Variable gt : json -> M (json * json).

Let inv := cache_inv schema.
Let any_exn : exn -> Prop := fun _ => True.

Hypothesis gt_inv : forall value,
  hoare inv (gt value) (fun x seen' => inv seen' /\ resolved x.1) any_exn.

Ltac hoare_step :=
  first
    [ apply hoare_bind_lift; [intros; exact I | intros ? ?]
    | apply hoare_ret; cbv beta; intros; tauto
    | apply hoare_raise; exact I
    | match goal with
      | |- hoare _ (if ?b then _ else _) _ _ => destruct b
      | |- hoare _ (match ?x with _ => _ end) _ _ => destruct x
      | |- forall _, _ => intro
      end ].

Lemma collect_subtypes_inv alts groups last :
  hoare inv (collect_subtypes gt alts groups last) (fun _ seen' => inv seen') any_exn.
Proof.
  revert groups last. induction alts as [|v alts IH]; intros groups last;
    cbn [collect_subtypes].
  - apply hoare_ret. auto.
  - eapply hoare_bind; [apply gt_inv | intros [spark_type metadata]].
    repeat hoare_step.
    eapply hoare_conseq; [apply IH | | |]; simpl; intros; tauto.
Qed.

Lemma merge_union_inv p_class anyof first :
  hoare inv (merge_union gt p_class anyof first) (fun _ seen' => inv seen') any_exn.
Proof.
  unfold merge_union. hoare_step.
  eapply hoare_bind; [apply collect_subtypes_inv | intros [groups [spark_type metadata]]].
  repeat hoare_step.
Qed.

Lemma struct_field_inv s required key value :
  hoare inv (struct_field gt s required key value) (fun _ seen' => inv seen') any_exn.
Proof.
  unfold struct_field. do 2 hoare_step.
  eapply hoare_bind with (R := fun _ seen' => inv seen').
  - destruct (truthy a0).
    + hoare_step. eapply hoare_bind; [apply gt_inv | intros [first_subtype first_metadata]].
      destruct (py_eq_str first_subtype "struct").
      * eapply hoare_conseq; [apply merge_union_inv | | |]; simpl; intros; tauto.
      * apply hoare_ret. simpl. intros; tauto.
    + eapply hoare_conseq; [apply gt_inv | | |]; simpl; intros; tauto.
  - intros [spark_type metadata]. do 2 hoare_step.
    eapply hoare_bind with (R := fun _ seen' => inv seen'); repeat hoare_step.
Qed.

Lemma get_fields_loop_inv s required items fields :
  hoare inv (get_fields_loop gt s required items fields) (fun _ seen' => inv seen') any_exn.
Proof.
  revert fields. induction items as [|[key value] items IH]; intros fields;
    cbn [get_fields_loop].
  - apply hoare_ret. auto.
  - eapply hoare_bind; [apply struct_field_inv | intros field; apply IH].
Qed.

Lemma get_fields_body_inv s :
  hoare inv (get_fields_body gt s) (fun _ seen' => inv seen') any_exn.
Proof. unfold get_fields_body. do 3 hoare_step. apply get_fields_loop_inv. Qed.

Lemma get_type_of_definition_inv r :
  let class_name := remove_all "#/definitions/" 0 r in
  hoare (fun seen => defined schema class_name -> inv seen)
    (get_type_of_definition (get_fields_body gt) (JStr r) schema)
    (fun spark_type seen' =>
       inv seen' /\ resolved spark_type /\ defined schema class_name)
    any_exn.
Proof.
  intros class_name. unfold get_type_of_definition.
  apply hoare_bind_lift; [intros; exact I | intros d Hd].
  assert (Hdef : defined schema class_name) by (exists d; exact Hd).
  eapply hoare_conseq with
    (P := inv) (Q := fun spark_type seen' => inv seen' /\ resolved spark_type)
    (E := any_exn);
    [ | intros seen Hseen; exact (Hseen Hdef) | cbv beta; intros; tauto
      | intros e He; exact He].
  hoare_step. destruct a.
  - hoare_step.
    repeat match goal with
           | |- hoare _ (if ?b then _ else _) _ _ => destruct b
           end;
      try (apply hoare_raise; exact I);
      apply hoare_ret; intros; (split; [assumption | split; discriminate]).
  - eapply hoare_bind; [apply get_fields_body_inv | intros fields].
    apply hoare_ret. intros seen Hseen. split; [assumption | split; discriminate].
Qed.

Lemma typed_branch_inv l :
  hoare inv (typed_branch gt l) (fun x seen' => inv seen' /\ resolved x.1) any_exn.
Proof.
  unfold typed_branch, resolved.
  repeat match goal with
         | |- hoare _ (if ?b then _ else _) _ _ => destruct b
         end;
    try (apply hoare_raise; exact I);
    try (apply hoare_ret; intros; (split; [assumption | split; discriminate])).
  - eapply hoare_bind; [apply gt_inv | intros [tn metadata]].
    apply hoare_ret. simpl. intros seen [Hseen _]. split; [assumption | split; discriminate].
  - eapply hoare_bind with (R := fun _ seen' => inv seen').
    + destruct (default JNull (dict_lookup "additionalProperties" l));
        try (apply hoare_ret; auto; fail);
        (eapply hoare_bind; [apply gt_inv | intros [value_type md]]);
        apply hoare_ret; simpl; intros; tauto.
    + intros value_type. apply hoare_ret.
      intros; (split; [assumption | split; discriminate]).
Qed.

End Invariant.

(** The invariant holds all along the translation. *)
Lemma get_type_inv schema fuel value :
  hoare (cache_inv schema) (get_type schema fuel value)
    (fun x seen' => cache_inv schema seen' /\ resolved x.1) (fun _ => True).
Proof.
  revert value. induction fuel as [|fuel IH]; intros value seen Hseen; [exact I|].
  destruct value as [| | | | | |l]; try exact I.
  destruct (dict_lookup "$ref" l) as [r|] eqn:Er.
  - destruct r as [| | | |r| |];
      try (rewrite (get_type_bad_ref _ _ _ _ _ Er) by congruence; exact I).
    + rewrite get_type_no_ref by (unfold no_ref; rewrite Er; reflexivity).
      apply (typed_branch_inv schema _ IH). exact Hseen.
    + rewrite (get_type_ref _ _ _ _ _ Er). cbv zeta.
      set (class_name := remove_all "#/definitions/" 0 r).
      destruct (seen !! class_name) as [cached|] eqn:Ec; simpl.
      * destruct (Hseen _ _ Ec) as [Hres Hdef].
        destruct cached as [| | | |s| |]; simpl;
          try (split; [exact Hseen | exact Hres]).
        { destruct Hres as [Hnull _]. congruence. }
        destruct (String.eqb s "in progress").
        -- split; [|exact resolved_placeholder].
           apply cache_inv_insert; [exact Hseen | exact resolved_placeholder | exact Hdef].
        -- split; [exact Hseen | exact Hres].
      * pose proof (get_type_of_definition_inv schema _ IH r
                      (<[class_name := JStr "in progress"]> seen)) as Hgtod.
        cbv zeta in Hgtod. fold class_name in Hgtod.
        destruct (get_type_of_definition _ _ _ _) as [[spark_type seen1]|e]; [|exact I].
        destruct Hgtod as (Hinv1 & Hres & Hdef).
        { intros Hdef. apply cache_inv_insert;
            [exact Hseen | exact resolved_in_progress | exact Hdef]. }
        split; [|exact Hres]. apply cache_inv_insert; assumption.
  - rewrite get_type_no_ref by (unfold no_ref; rewrite Er; reflexivity).
    apply (typed_branch_inv schema _ IH). exact Hseen.
Qed.

(** The comparison of line 148 is false each time it is evaluated: the
    branch that merges the fields of a union of structs is never entered. *)
Lemma union_branch_dead schema fuel value seen first_subtype first_metadata seen' :
  cache_inv schema seen ->
  get_type schema fuel value seen = Ok (first_subtype, first_metadata, seen') ->
  py_eq_str first_subtype "struct" = false.
Proof.
  intros Hseen H. pose proof (get_type_inv schema fuel value seen Hseen) as Hinv.
  rewrite H in Hinv. destruct Hinv as [_ [_ Hstruct]]. simpl in Hstruct.
  destruct first_subtype as [| | | |s| |]; try reflexivity.
  simpl. destruct (String.eqb_spec s "struct"); [congruence | reflexivity].
Qed.

(** Hence a union property gets the type of its first alternative. *)
Lemma union_field_is_first_alternative schema fuel s required key l seen field seen' :
  cache_inv schema seen ->
  union_property l = true ->
  struct_field (get_type schema fuel) s required key (JObj l) seen = Ok (field, seen') ->
  exists first_value spark_type metadata,
    py_getitem0 (default JNull (dict_lookup "anyOf" l)) = Ok first_value /\
    get_type schema fuel first_value seen = Ok (spark_type, metadata, seen') /\
    py_getitem field "type" = Ok spark_type.
Proof.
  unfold union_property. intros Hseen Hunion H. unfold struct_field in H. inv_runs.
  match goal with
  | H : py_get (JObj l) "anyOf" JNull = Ok _ |- _ => simpl in H; injection H as <-
  end.
  rewrite Hunion in *. inv_runs.
  match goal with
  | H : get_type _ _ _ _ = Ok (?ty, _, _) |- _ =>
      rewrite (union_branch_dead _ _ _ _ _ _ _ Hseen H) in *
  end.
  inv_runs.
  match goal with
  | H : (if ?b then _ else _) _ = Ok _ |- _ => destruct b
  end; inv_runs;
    (do 3 eexists; split; [eassumption|]; split; [eassumption|]; reflexivity).
Qed.

(** ** Missing definitions *)





(** ** Termination

    A call of [get_type] either descends into a part of its argument, or
    follows a [$ref] to a definition whose name is not yet in the cache and
    enters it.  Names are never removed from the cache, so the number of
    definitions not yet met decreases along the second kind of call, and the
    size of the argument along the first. *)

Lemma grows_refl seen : grows seen seen.
Proof. intros k H. exact H. Qed.

Lemma grows_trans seen1 seen2 seen3 :
  grows seen1 seen2 -> grows seen2 seen3 -> grows seen1 seen3.
Proof. intros H12 H23 k H. apply H12, H23, H. Qed.

Lemma grows_insert seen k v : is_null v = false -> grows seen (<[k := v]> seen).
Proof.
  intros Hv k' H. destruct (decide (k = k')) as [<-|Hne].
  - rewrite lookup_insert_eq in H. simpl in H. congruence.
  - rewrite lookup_insert_ne in H by exact Hne. exact H.
Qed.

Lemma unseen_grows seen seen' names :
  grows seen seen' -> unseen seen' names <= unseen seen names.
Proof.
  intros Hg. induction names as [|k names IH]; simpl; [lia|].
  specialize (Hg k).
  destruct (is_null (default JNull (seen' !! k)));
    [rewrite Hg by reflexivity; lia|].
  destruct (is_null (default JNull (seen !! k))); lia.
Qed.

Lemma unseen_insert_lt seen k v names :
  In k names -> is_null (default JNull (seen !! k)) = true -> is_null v = false ->
  unseen (<[k := v]> seen) names < unseen seen names.
Proof.
  intros Hin Hk Hv. induction names as [|k' names IH]; [destruct Hin|].
  pose proof (unseen_grows seen (<[k := v]> seen) names (grows_insert seen k v Hv)) as Hle.
  simpl. destruct (decide (k = k')) as [<-|Hne].
  - rewrite lookup_insert_eq. simpl. rewrite Hv, Hk. lia.
  - rewrite lookup_insert_ne by exact Hne.
    destruct Hin as [->|Hin]; [congruence|]. specialize (IH Hin).
    destruct (is_null (default JNull (seen !! k'))); lia.
Qed.

Lemma unseen_le_length seen names : unseen seen names <= length names.
Proof.
  induction names as [|k names IH]; simpl; [lia|].
  destruct (is_null _); lia.
Qed.

Lemma size_dict_lookup k l v : dict_lookup k l = Some v -> size v < size (JObj l).
Proof.
  induction l as [|[k' v'] l IH]; simpl; [discriminate|].
  destruct (String.eqb k k').
  - intros [= ->]. lia.
  - intros H. specialize (IH H). simpl in IH. lia.
Qed.

Lemma size_py_get v k x : py_get v k JNull = Ok x -> size x <= size v.
Proof.
  destruct v; try discriminate. simpl. intros [= <-].
  destruct (dict_lookup k l) as [y|] eqn:E; simpl; [|lia].
  apply size_dict_lookup in E. simpl in E. lia.
Qed.

Lemma size_chars s : Forall (fun x => size x <= 0) (chars s).
Proof. induction s; simpl; constructor; simpl; auto. Qed.

Lemma size_py_getitem0 v x : py_getitem0 v = Ok x -> size x <= size v.
Proof.
  destruct v as [| | | |s|l|l]; try discriminate; simpl.
  - destruct s; [discriminate|]. intros [= <-]. simpl. lia.
  - destruct l; [discriminate|]. intros [= <-]. simpl. lia.
Qed.

Lemma size_py_iter v alts :
  py_iter v = Ok alts -> Forall (fun x => size x <= size v) alts.
Proof.
  destruct v as [| | | |s|l|l]; try discriminate; simpl; intros [= <-].
  - apply size_chars.
  - induction l as [|x l IH]; constructor; simpl; [lia|].
    eapply Forall_impl; [exact IH|]. simpl. intros; lia.
  - induction l as [|[k x] l IH]; simpl; constructor; simpl; [lia|].
    eapply Forall_impl; [exact IH|]. simpl. intros; lia.
Qed.

Lemma size_items l :
  Forall (fun kv : string * json => size kv.2 < size (JObj l)) l.
Proof.
  induction l as [|[k x] l IH]; constructor; simpl; [lia|].
  eapply Forall_impl; [exact IH|]. simpl. intros; lia.
Qed.

Lemma size_properties s l :
  py_get s "properties" (JObj []) = Ok (JObj l) ->
  Forall (fun kv : string * json => size kv.2 <= size s) l.
Proof.
  destruct s as [| | | | | |ls]; try discriminate. simpl. intros [= H].
  destruct (dict_lookup "properties" ls) as [p|] eqn:E; simpl in H.
  - subst p. apply size_dict_lookup in E.
    eapply Forall_impl; [apply (size_items l)|]. simpl in *. intros; lia.
  - injection H as <-. constructor.
Qed.

Lemma definition_of_Ok schema id d :
  definition_of schema id = Ok d ->
  In id (definition_names schema) /\ size d <= size schema.
Proof.
  unfold definition_of, definition_names, definitions_table.
  destruct schema as [| | | | | |l]; try discriminate. unfold py_get at 1 3.
  destruct (dict_lookup "definitions" l) as [defs|] eqn:El; simpl.
  - destruct defs as [| | | | | |defs]; try discriminate. simpl.
    destruct (dict_lookup id defs) as [d'|] eqn:Ed; simpl; [|discriminate].
    intros Hd. assert (d' = d) as -> by (destruct d'; congruence).
    split.
    + clear -Ed. induction defs as [|[k x] defs IH]; simpl in *; [discriminate|].
      destruct (String.eqb_spec id k); [left; congruence | right; auto].
    + apply size_dict_lookup in Ed, El. simpl in *. lia.
  - discriminate.
Qed.

Lemma hoare_bind_pure {A B} P (r : result A) (k : A -> M B) (Q : B -> cache -> Prop) :
  pure r ->
  (forall a, r = Ok a -> hoare P (k a) Q python_exn) ->
  hoare P (bind (lift r) k) Q python_exn.
Proof. intros Hr Hk. apply hoare_bind_lift; [exact Hr | exact Hk]. Qed.

Section Safe.

Variable schema : json.
Variable gt : json -> M (json * json).
Variables (b u : nat).

Let names := definition_names schema.

Hypothesis gt_safe : forall value seen,
  size value <= b -> unseen seen names <= u -> safe_run seen (gt value seen).

Variable seen0 : cache.
Hypothesis seen0_bound : unseen seen0 names <= u.

Let P : cache -> Prop := grows seen0.

Lemma gt_hoare value :
  size value <= b -> hoare P (gt value) (fun _ => P) python_exn.
Proof.
  intros Hsize seen Hseen.
  assert (Hu : unseen seen names <= u).
  { pose proof (unseen_grows _ _ names Hseen). lia. }
  specialize (gt_safe value seen Hsize Hu). unfold safe_run in gt_safe.
  destruct (gt value seen) as [[a seen']|e]; [|exact gt_safe].
  exact (grows_trans _ _ _ Hseen gt_safe).
Qed.

Ltac safe_step :=
  first
    [ apply hoare_bind_pure; [auto with pure_ops; fail | intros ? ?]
    | apply hoare_ret; cbv beta; intros; assumption
    | apply hoare_raise; discriminate
    | match goal with
      | |- hoare _ (if ?b then _ else _) _ _ => destruct b
      end ].

Lemma collect_subtypes_safe alts groups last :
  Forall (fun v => size v <= b) alts ->
  hoare P (collect_subtypes gt alts groups last) (fun _ => P) python_exn.
Proof.
  intros Halts. revert groups last.
  induction Halts as [|v alts Hv _ IH]; intros groups last; cbn [collect_subtypes].
  - apply hoare_ret. auto.
  - eapply hoare_bind; [apply gt_hoare; exact Hv | intros [spark_type metadata]].
    do 3 safe_step. apply IH.
Qed.

Lemma merge_union_safe p_class anyof first :
  size anyof <= b ->
  hoare P (merge_union gt p_class anyof first) (fun _ => P) python_exn.
Proof.
  intros Hsize. unfold merge_union. safe_step.
  eapply hoare_bind.
  - apply collect_subtypes_safe.
    eapply Forall_impl; [apply size_py_iter; eassumption|]. simpl. intros; lia.
  - intros [groups [spark_type metadata]]. repeat safe_step.
Qed.

Lemma struct_field_safe s required key value :
  size value <= b ->
  hoare P (struct_field gt s required key value) (fun _ => P) python_exn.
Proof.
  intros Hsize. unfold struct_field. do 2 safe_step.
  match goal with
  | H : py_get value "anyOf" JNull = Ok ?anyof |- _ =>
      assert (Hanyof : size anyof <= b) by (apply size_py_get in H; lia)
  end.
  eapply hoare_bind with (R := fun _ => P).
  - safe_step.
    + safe_step.
      match goal with
      | H : py_getitem0 _ = Ok ?x |- _ =>
          assert (Hfirst : size x <= b) by (apply size_py_getitem0 in H; lia)
      end.
      eapply hoare_bind; [apply gt_hoare; exact Hfirst|].
      intros [first_subtype first_metadata]. safe_step.
      * apply merge_union_safe. exact Hanyof.
      * safe_step.
    + apply gt_hoare. exact Hsize.
  - intros [spark_type metadata]. do 2 safe_step.
    eapply hoare_bind with (R := fun _ => P).
    + repeat safe_step.
    + intros nullable. safe_step.
Qed.

Lemma get_fields_loop_safe s required items fields :
  Forall (fun kv : string * json => size kv.2 <= b) items ->
  hoare P (get_fields_loop gt s required items fields) (fun _ => P) python_exn.
Proof.
  intros Hitems. revert fields.
  induction Hitems as [|[key value] items Hv _ IH]; intros fields; cbn [get_fields_loop].
  - apply hoare_ret. auto.
  - eapply hoare_bind; [apply struct_field_safe; exact Hv | intros field; apply IH].
Qed.

Lemma get_fields_body_safe s :
  size s <= b ->
  hoare P (get_fields_body gt s) (fun _ => P) python_exn.
Proof.
  intros Hsize. unfold get_fields_body. do 3 safe_step.
  apply get_fields_loop_safe.
  match goal with
  | H : py_items ?p = Ok _ |- _ => destruct p; try discriminate H; injection H as <-
  end.
  match goal with
  | H : py_get s "properties" _ = Ok (JObj ?l) |- _ =>
      eapply Forall_impl; [apply (size_properties _ _ H)|]; simpl; intros; lia
  end.
Qed.

Lemma get_type_of_definition_safe ref :
  (forall d, get_definition ref schema = Ok d -> size d <= b) ->
  hoare P (get_type_of_definition (get_fields_body gt) ref schema)
    (fun spark_type seen' => P seen' /\ is_null spark_type = false) python_exn.
Proof.
  intros Hsize. unfold get_type_of_definition. do 3 safe_step.
  - safe_step.
    repeat match goal with
           | |- hoare _ (if ?b then _ else _) _ _ => destruct b
           end;
      try (apply hoare_raise; discriminate);
      apply hoare_ret; intros; (split; [assumption | reflexivity]).
  - eapply hoare_bind; [apply get_fields_body_safe; auto | intros fields].
    apply hoare_ret. intros; (split; [assumption | reflexivity]).
Qed.

Lemma typed_branch_safe l :
  size (JObj l) <= S b ->
  hoare P (typed_branch gt l) (fun _ => P) python_exn.
Proof.
  intros Hsize. unfold typed_branch.
  assert (Hsub : forall k, size (default JNull (dict_lookup k l)) <= b).
  { intros k. destruct (dict_lookup k l) as [x|] eqn:E; simpl; [|lia].
    apply size_dict_lookup in E. lia. }
  repeat match goal with
         | |- hoare _ (if ?b then _ else _) _ _ => destruct b
         end;
    try (apply hoare_raise; discriminate);
    try (apply hoare_ret; cbv beta; intros; assumption).
  - eapply hoare_bind; [apply gt_hoare; apply Hsub | intros [tn metadata]].
    apply hoare_ret. auto.
  - eapply hoare_bind with (R := fun _ => P).
    + specialize (Hsub "additionalProperties").
      destruct (default JNull (dict_lookup "additionalProperties" l));
        try (apply hoare_ret; auto; fail);
        (eapply hoare_bind; [apply gt_hoare; exact Hsub | intros [value_type md]]);
        apply hoare_ret; auto.
    + intros value_type. apply hoare_ret. auto.
Qed.

End Safe.

(** With a budget above the measure, [get_type] does not run out. *)
Lemma get_type_safe schema fuel value seen :
  size value <= size schema ->
  unseen seen (definition_names schema) * S (size schema) + size value < fuel ->
  safe_run seen (get_type schema fuel value seen).
Proof.
  revert value seen. induction fuel as [|fuel IH]; intros value seen Hsize Hfuel; [lia|].
  destruct value as [| | | | | |l]; try discriminate.
  destruct (dict_lookup "$ref" l) as [r|] eqn:Er.
  1: destruct r as [| | | |r| |].
  all: try (rewrite (get_type_bad_ref _ _ _ _ _ Er) by congruence; discriminate).
  1, 3: rewrite get_type_no_ref by (unfold no_ref; rewrite Er; reflexivity);
    apply (typed_branch_safe schema (get_type schema fuel)
             (size (JObj l) - 1) (unseen seen (definition_names schema)));
    [ intros v s Hv Hs; apply IH; [lia | simpl in Hfuel, Hv; nia]
    | lia | simpl; lia | apply grows_refl ].
  rewrite (get_type_ref _ _ _ _ _ Er). cbv zeta.
  set (class_name := remove_all "#/definitions/" 0 r).
  destruct (default JNull (seen !! class_name)) eqn:Ec;
    try (apply grows_refl);
    try (simpl; destruct (String.eqb _ _);
         [apply grows_insert; reflexivity | apply grows_refl]).
  set (seen1 := <[class_name := JStr "in progress"]> seen).
  destruct (definition_of schema class_name) as [d|e] eqn:Hd.
  - apply definition_of_Ok in Hd as Hd'. destruct Hd' as [Hin Hd'].
    assert (Hlt : unseen seen1 (definition_names schema)
                  < unseen seen (definition_names schema)).
    { apply unseen_insert_lt; [exact Hin | rewrite Ec; reflexivity | reflexivity]. }
    pose proof (get_type_of_definition_safe schema (get_type schema fuel) (size schema)
                  (unseen seen1 (definition_names schema))) as Hgtod.
    specialize (Hgtod ltac:(intros v s Hv Hs; apply IH; [exact Hv | nia])
                  seen1 ltac:(lia) (JStr r)).
    specialize (Hgtod ltac:(intros d'; rewrite get_definition_str; fold class_name;
                            rewrite Hd; intros [= <-]; exact Hd')
                  seen1 (grows_refl _)).
    destruct (get_type_of_definition _ _ _ _) as [[spark_type seen2]|e]; [|exact Hgtod].
    destruct Hgtod as [Hg Hnull]. simpl.
    eapply grows_trans; [|apply grows_insert; exact Hnull].
    eapply grows_trans; [|exact Hg]. apply grows_insert. reflexivity.
  - unfold get_type_of_definition, bind, lift. rewrite get_definition_str.
    fold class_name. rewrite Hd. simpl.
    apply (pure_get_definition (JStr r) schema).
    rewrite get_definition_str. exact Hd.
Qed.

(** The translation of any schema ends: on the budget [fuel_for schema] it
    returns a struct or raises a Python exception, and every larger budget
    gives the same result. *)
Theorem translate_total (schema : json) :
  translate schema <> Err OutOfFuel /\
  forall fuel, fuel_for schema <= fuel -> _spark_schema fuel schema = translate schema.
Proof.
  assert (Hsafe : translate schema <> Err OutOfFuel).
  { unfold translate, _spark_schema, get_fields.
    pose proof (get_fields_body_safe schema (get_type schema (fuel_for schema))
                  (size schema) (length (definition_names schema))) as H.
    specialize (H ltac:(intros v s Hv Hs; apply get_type_safe;
                        [exact Hv | unfold fuel_for; nia])
                  ∅ (unseen_le_length _ _) schema ltac:(lia) ∅ (grows_refl _)).
    destruct (get_fields_body _ _ _) as [[fields seen]|e]; [discriminate|].
    intros [= ->]. apply H. reflexivity. }
  split; [exact Hsafe|].
  intros fuel Hle. apply spark_schema_refines; assumption.
Qed.

(** A run on any budget either runs out or agrees with [translate]. *)
Corollary translate_unique (schema : json) (fuel : nat) :
  _spark_schema fuel schema <> Err OutOfFuel ->
  _spark_schema fuel schema = translate schema.
Proof.
  intros H. destruct (Nat.le_ge_cases (fuel_for schema) fuel) as [Hle|Hge].
  - apply translate_total. exact Hle.
  - symmetry. apply spark_schema_refines; assumption.
Qed.

(** ** Self-referencing definitions *)

(** C2: the translation of the self-referencing [Node] ends and returns a
    struct, but the type of the field [next] is not the map type: it is a
    dictionary with the single key [type], under which the map type sits.
    Its [type] entry is a dictionary where a map type has the str ["map"],
    and it has no [keyType] entry. *)
Theorem self_reference_type :
  translate node_schema =
    Ok (JObj [("fields",
               JArr [JObj [("name", JStr "head");
                           ("nullable", JBool true);
                           ("metadata", JObj [("parentClass", JStr "List")]);
                           ("type",
                            struct_type
                              [JObj [("name", JStr "next");
                                     ("nullable", JBool true);
                                     ("metadata", JObj [("parentClass", JStr "Node")]);
                                     ("type", cycle_placeholder)]])]]);
              ("type", JStr "struct")]) /\
  py_getitem string_map "type" = Ok (JStr "map") /\
  py_getitem string_map "keyType" = Ok (JStr "string") /\
  py_getitem cycle_placeholder "type" =
    Ok (JObj [("type", JStr "map"); ("keyType", JStr "string");
              ("valueType", JStr "string"); ("valueContainsNull", JBool true)]) /\
  py_getitem cycle_placeholder "keyType" = Err KeyError.
Proof. repeat split; vm_compute; reflexivity. Qed.

(** ** Unions of structs *)

(** What lines 149-171 compute for the union [u] when they are run. *)
Lemma union_schema_merged :
  match merge_union (get_type union_schema 2) (JStr "Root") union_alternatives
          (JNull, JNull) ∅ with
  | Ok (spark_type, _, _) => Ok spark_type
  | Err e => Err e
  end =
  Ok (struct_type
        [JObj [("name", JStr "a"); ("nullable", JBool false);
               ("metadata", JObj [("parentClass", JStr "Root")]); ("type", JStr "string")];
         JObj [("name", JStr "c"); ("nullable", JBool true);
               ("metadata", JObj [("parentClass", JStr "Root")]); ("type", JStr "boolean")];
         JObj [("name", JStr "b"); ("nullable", JBool true);
               ("metadata", JObj [("parentClass", JStr "Root")]); ("type", JStr "long")]]).
Proof. vm_compute. reflexivity. Qed.

(** C1: for the union of the structs [A] and [B] the translation returns the
    struct of [A] alone: the field [b] of [B] is not there, and the field
    [c], which [B] does not have, is not nullable. *)
Theorem union_of_structs_not_merged :
  translate union_schema =
    Ok (JObj [("fields",
               JArr [JObj [("name", JStr "u");
                           ("nullable", JBool true);
                           ("metadata", JObj [("parentClass", JStr "Root")]);
                           ("type",
                            struct_type
                              [JObj [("name", JStr "a"); ("nullable", JBool false);
                                     ("metadata", JObj [("parentClass", JStr "A")]);
                                     ("type", JStr "string")];
                               JObj [("name", JStr "c"); ("nullable", JBool false);
                                     ("metadata", JObj [("parentClass", JStr "A")]);
                                     ("type", JStr "boolean")]])]]);
              ("type", JStr "struct")]).
Proof. vm_compute. reflexivity. Qed.

(** * Further properties of the translator *)

(** ** Termination *)

(** X1: the translation of any schema ends.  On the budget [fuel_for schema]
    it returns a struct or raises a Python exception; every larger budget
    gives this result, and so does every budget that is not exhausted. *)
Theorem translation_terminates (schema : json) :
  translate schema <> Err OutOfFuel /\
  (forall fuel, fuel_for schema <= fuel -> _spark_schema fuel schema = translate schema) /\
  (forall fuel, _spark_schema fuel schema <> Err OutOfFuel ->
   _spark_schema fuel schema = translate schema).
Proof.
  split; [apply translate_total | split].
  - apply translate_total.
  - intros fuel. apply translate_unique.
Qed.

Lemma translation_terminates_witness :
  translate twice_schema <> Err OutOfFuel /\
  _spark_schema 100 twice_schema = translate twice_schema /\
  _spark_schema 2 twice_schema = translate twice_schema.
Proof.
  destruct (translation_terminates twice_schema) as (Hend & Hlarge & Hany).
  split; [exact Hend | split].
  - apply Hlarge. vm_compute. lia.
  - apply Hany. vm_compute. discriminate.
Defined.

(** ** References to enumerations *)

Lemma get_type_first_ref schema fuel l r seen :
  dict_lookup "$ref" l = Some (JStr r) ->
  seen !! remove_all "#/definitions/" 0 r = None ->
  get_type schema (S fuel) (JObj l) seen =
    match get_type_of_definition (get_fields_body (get_type schema fuel)) (JStr r) schema
            (<[remove_all "#/definitions/" 0 r := JStr "in progress"]> seen) with
    | Ok (spark_type, seen') =>
        Ok (spark_type, carried_default l,
            <[remove_all "#/definitions/" 0 r := spark_type]> seen')
    | Err e => Err e
    end.
Proof.
  intros Hr Hnone. rewrite (get_type_ref _ _ _ _ _ Hr). cbv zeta.
  rewrite Hnone. reflexivity.
Qed.

(** X2: the first reference to an enumeration, a definition with an [enum]
    entry, resolves to string, double or long as the [type] of the
    definition is string, number or integer, and stores this type under the
    name; with any other [type] it raises the runtime error that carries
    that [type]. *)
Theorem enum_reference (schema : json) (fuel : nat) (seen : cache)
    (l d : list (string * json)) (name : string)
    (Hname : ref_to l name)
    (Hfresh : seen !! name = None)
    (Hdef : definition_of schema name = Ok (JObj d))
    (Henum : is_Some (dict_lookup "enum" d)) :
  let t := default JNull (dict_lookup "type" d) in
  let run := get_type schema (S fuel) (JObj l) seen in
  (py_eq_str t "string" = true ->
   run = Ok (JStr "string", carried_default l, <[name := JStr "string"]> seen)) /\
  (py_eq_str t "number" = true ->
   run = Ok (JStr "double", carried_default l, <[name := JStr "double"]> seen)) /\
  (py_eq_str t "integer" = true ->
   run = Ok (JStr "long", carried_default l, <[name := JStr "long"]> seen)) /\
  (py_eq_str t "string" = false -> py_eq_str t "number" = false ->
   py_eq_str t "integer" = false ->
   run = Err (RuntimeError (Unknown_enum_type t))).
Proof.
  destruct Hname as (r & Hr & ->). cbv zeta.
  rewrite (get_type_first_ref _ _ _ _ _ Hr Hfresh).
  unfold get_type_of_definition, bind, lift. rewrite get_definition_str, Hdef.
  cbn [py_in py_get]. rewrite bool_decide_eq_true_2 by exact Henum.
  repeat split.
  - intros ->. unfold ret. rewrite insert_insert_eq. reflexivity.
  - intros Hn. destruct (py_eq_str _ "string") eqn:Es.
    + destruct (default JNull (dict_lookup "type" d)) as [| | | |s| |]; try discriminate.
      simpl in Es, Hn. apply String.eqb_eq in Es, Hn. congruence.
    + rewrite Hn. unfold ret. rewrite insert_insert_eq. reflexivity.
  - intros Hi. destruct (py_eq_str _ "string") eqn:Es.
    + destruct (default JNull (dict_lookup "type" d)) as [| | | |s| |]; try discriminate.
      simpl in Es, Hi. apply String.eqb_eq in Es, Hi. congruence.
    + destruct (py_eq_str _ "number") eqn:En.
      * destruct (default JNull (dict_lookup "type" d)) as [| | | |s| |]; try discriminate.
        simpl in En, Hi. apply String.eqb_eq in En, Hi. congruence.
      * rewrite Hi. unfold ret. rewrite insert_insert_eq. reflexivity.
  - intros -> -> ->. reflexivity.
Qed.

Lemma enum_reference_witness :
  let l := [("$ref", JStr "#/definitions/E")] in
  get_type (enum_schema (JStr "string")) 1 (JObj l) ∅
    = Ok (JStr "string", JObj [], <["E" := JStr "string"]> ∅) /\
  get_type (enum_schema (JStr "number")) 1 (JObj l) ∅
    = Ok (JStr "double", JObj [], <["E" := JStr "double"]> ∅) /\
  get_type (enum_schema (JStr "integer")) 1 (JObj l) ∅
    = Ok (JStr "long", JObj [], <["E" := JStr "long"]> ∅) /\
  get_type (enum_schema (JStr "boolean")) 1 (JObj l) ∅
    = Err (RuntimeError (Unknown_enum_type (JStr "boolean"))).
Proof.
  intros l.
  assert (Hname : ref_to l "E") by (exists "#/definitions/E"; split; reflexivity).
  pose (d := fun t : json =>
          [("title", JStr "E"); ("enum", JArr [JInt 1; JInt 2]); ("type", t)]).
  assert (Henum : forall t, is_Some (dict_lookup "enum" (d t))) by (intros t; simpl; eauto).
  split; [|split; [|split]].
  - exact (proj1 (enum_reference (enum_schema (JStr "string")) 0 ∅ l (d (JStr "string"))
                    "E" Hname eq_refl eq_refl (Henum _)) eq_refl).
  - exact (proj1 (proj2 (enum_reference (enum_schema (JStr "number")) 0 ∅ l
                           (d (JStr "number")) "E" Hname eq_refl eq_refl (Henum _)))
             eq_refl).
  - exact (proj1 (proj2 (proj2 (enum_reference (enum_schema (JStr "integer")) 0 ∅ l
                                  (d (JStr "integer")) "E" Hname eq_refl eq_refl
                                  (Henum _)))) eq_refl).
  - exact (proj2 (proj2 (proj2 (enum_reference (enum_schema (JStr "boolean")) 0 ∅ l
                                  (d (JStr "boolean")) "E" Hname eq_refl eq_refl
                                  (Henum _)))) eq_refl eq_refl eq_refl).
Defined.

(** ** Arrays and maps *)

Lemma get_type_array schema fuel l seen :
  no_ref l -> py_eq_str (effective_type l) "array" = true ->
  get_type schema (S fuel) (JObj l) seen =
    match get_type schema fuel (default JNull (dict_lookup "items" l)) seen with
    | Ok (tn, metadata, seen') => Ok (array_type tn, metadata, seen')
    | Err e => Err e
    end.
Proof.
  intros Href Harr. rewrite get_type_no_ref by exact Href.
  unfold typed_branch. rewrite Harr. unfold bind.
  destruct (get_type schema fuel _ seen) as [[[tn metadata] seen']|e]; reflexivity.
Qed.

(** X3: an array descriptor is translated by translating its [items]: the
    result is the array of the element type, elements nullable, with the
    metadata of the items (the array's own default is not carried) and the
    cache the items left; an exception of the items is the exception of the
    array, and without [items] it is an [AttributeError].  Hence [n] nested
    arrays around [d] give [n] nested array types around the type of [d]. *)
Theorem array_of_items (schema : json) (fuel : nat) (seen : cache) :
  (forall l, no_ref l -> has_type l "array" ->
     get_type schema (S fuel) (JObj l) seen =
       match get_type schema fuel (default JNull (dict_lookup "items" l)) seen with
       | Ok (tn, metadata, seen') => Ok (array_type tn, metadata, seen')
       | Err e => Err e
       end) /\
  (forall l, no_ref l -> has_type l "array" -> dict_lookup "items" l = None ->
     get_type schema (S (S fuel)) (JObj l) seen = Err AttributeError) /\
  (forall n d,
     get_type schema (n + fuel) (nest_array n d) seen =
       match get_type schema fuel d seen with
       | Ok (tn, metadata, seen') => Ok (Nat.iter n array_type tn, metadata, seen')
       | Err e => Err e
       end).
Proof.
  assert (Hone : forall fuel' l, no_ref l -> has_type l "array" ->
     get_type schema (S fuel') (JObj l) seen =
       match get_type schema fuel' (default JNull (dict_lookup "items" l)) seen with
       | Ok (tn, metadata, seen') => Ok (array_type tn, metadata, seen')
       | Err e => Err e
       end).
  { intros fuel' l Href Ht. apply get_type_array; [exact Href|].
    unfold effective_type, has_type in *. rewrite Ht. reflexivity. }
  split; [apply Hone | split].
  - intros l Href Ht Hitems. rewrite Hone by assumption. rewrite Hitems. reflexivity.
  - intros n d. induction n as [|n IH]; cbn [nest_array Nat.add Nat.iter].
    + destruct (get_type schema fuel d seen) as [[[tn metadata] seen']|e]; reflexivity.
    + rewrite Hone by reflexivity.
      change (default JNull
                (dict_lookup "items" [("type", JStr "array"); ("items", nest_array n d)]))
        with (nest_array n d).
      rewrite IH.
      destruct (get_type schema fuel d seen) as [[[tn metadata] seen']|e]; reflexivity.
Qed.

Lemma array_of_items_witness :
  get_type JNull 2
    (JObj [("type", JStr "array");
           ("items", JObj [("type", JStr "string"); ("format", JStr "uuid")]);
           ("default", JArr [])]) ∅
    = Ok (array_type (JStr "string"), JObj [("logicalType", JStr "uuid")], ∅) /\
  get_type JNull 2 (JObj [("type", JStr "array")]) ∅ = Err AttributeError.
Proof.
  split.
  - exact (proj1 (array_of_items JNull 1 ∅)
             [("type", JStr "array");
              ("items", JObj [("type", JStr "string"); ("format", JStr "uuid")]);
              ("default", JArr [])] eq_refl eq_refl).
  - exact (proj1 (proj2 (array_of_items JNull 0 ∅))
             [("type", JStr "array")] eq_refl eq_refl eq_refl).
Defined.

(** X4: an object descriptor is translated to a map with str keys and
    nullable values.  Without [additionalProperties] the values are strings
    and nothing is resolved; otherwise the value type is the type of
    [additionalProperties], whose metadata is dropped: the metadata of the
    map is the object's own, its default included. *)
Theorem object_is_map (schema : json) (fuel : nat) (seen : cache)
    (l : list (string * json)) (Href : no_ref l) (Htype : has_type l "object") :
  let run := get_type schema (S fuel) (JObj l) seen in
  let a := default JNull (dict_lookup "additionalProperties" l) in
  (a = JNull -> run = Ok (map_type (JStr "string"), carried_default l, seen)) /\
  (a <> JNull ->
   run = match get_type schema fuel a seen with
         | Ok (value_type, _, seen') => Ok (map_type value_type, carried_default l, seen')
         | Err e => Err e
         end).
Proof.
  cbv zeta. rewrite get_type_no_ref by exact Href.
  unfold typed_branch, effective_type. unfold has_type in Htype. rewrite Htype. simpl.
  split.
  - intros ->. reflexivity.
  - intros Ha. unfold bind.
    destruct (default JNull (dict_lookup "additionalProperties" l)) eqn:E;
      try congruence;
      destruct (get_type schema fuel _ seen) as [[[vt md] seen']|err]; reflexivity.
Qed.

Lemma object_is_map_witness :
  get_type JNull 1 (JObj [("type", JStr "object"); ("default", JObj [])]) ∅
    = Ok (map_type (JStr "string"), JObj [("default", JObj [])], ∅) /\
  get_type JNull 2
    (JObj [("type", JStr "object");
           ("additionalProperties", JObj [("type", JStr "string"); ("format", JStr "uuid")])]) ∅
    = Ok (map_type (JStr "string"), JObj [], ∅).
Proof.
  split.
  - exact (proj1 (object_is_map JNull 0 ∅
                    [("type", JStr "object"); ("default", JObj [])] eq_refl eq_refl)
             eq_refl).
  - refine (proj2 (object_is_map JNull 1 ∅
                     [("type", JStr "object");
                      ("additionalProperties",
                       JObj [("type", JStr "string"); ("format", JStr "uuid")])]
                     eq_refl eq_refl) _).
    discriminate.
Defined.

(** X12: a union that is not itself a property, such as the items of an
    array, is translated to string whatever its alternatives are: none of
    them is resolved, and the cache is left as it was. *)
Theorem nested_union_is_string (schema : json) (fuel : nat) (seen : cache)
    (l : list (string * json))
    (Href : no_ref l)
    (Htype : truthy (default JNull (dict_lookup "type" l)) = false)
    (Hunion : union_property l = true) :
  get_type schema (S fuel) (JObj l) seen = Ok (JStr "string", carried_default l, seen).
Proof.
  rewrite get_type_no_ref by exact Href.
  unfold typed_branch, effective_type. unfold union_property in Hunion.
  rewrite Htype, Hunion. reflexivity.
Qed.

Lemma nested_union_is_string_witness :
  get_type JNull 1
    (JObj [("anyOf", JArr [JObj [("$ref", JStr "#/definitions/Missing")];
                           JObj [("type", JStr "integer")]])]) ∅
    = Ok (JStr "string", JObj [], ∅).
Proof.
  exact (nested_union_is_string JNull 0 ∅
           [("anyOf", JArr [JObj [("$ref", JStr "#/definitions/Missing")];
                            JObj [("type", JStr "integer")]])]
           eq_refl eq_refl eq_refl).
Defined.

(** ** Repeated references *)

(** X5: once a reference to a name has been resolved, the cache answers
    every further reference to this name: the same type is returned, the
    cache is not changed, and no recursive call is needed (a budget of one
    call is enough). *)
Theorem reference_is_cached (schema : json) (fuel fuel' : nat) (seen seen' : cache)
    (l l' : list (string * json)) (name : string) (spark_type metadata : json)
    (Hname : ref_to l name) (Hname' : ref_to l' name)
    (Hrun : get_type schema fuel (JObj l) seen = Ok (spark_type, metadata, seen')) :
  get_type schema (S fuel') (JObj l') seen' = Ok (spark_type, carried_default l', seen').
Proof.
  destruct Hname as (r & Hr & ->). destruct Hname' as (r' & Hr' & Heq).
  destruct fuel as [|fuel]; [discriminate Hrun|].
  rewrite (get_type_ref _ _ _ _ _ Hr) in Hrun. cbv zeta in Hrun.
  rewrite (get_type_ref _ _ _ _ _ Hr'). cbv zeta. rewrite <- Heq.
  set (name := remove_all "#/definitions/" 0 r) in *.
  destruct (default JNull (seen !! name)) as [| | | |s| |] eqn:Ec.
  - destruct (get_type_of_definition _ _ _ _) as [[ty seen1]|e] eqn:Hgtod;
      [|discriminate Hrun].
    injection Hrun as <- <- <-. rewrite lookup_insert_eq. cbn [default].
    apply get_type_of_definition_Ok in Hgtod as (d & _ & [[Hprim _] | (fs & _ & ->)]).
    + destruct Hprim as [->|[->| ->]]; reflexivity.
    + reflexivity.
  - injection Hrun as <- <- <-. rewrite Ec. reflexivity.
  - injection Hrun as <- <- <-. rewrite Ec. reflexivity.
  - injection Hrun as <- <- <-. rewrite Ec. reflexivity.
  - simpl in Hrun. destruct (String.eqb s "in progress") eqn:Es.
    + injection Hrun as <- <- <-. rewrite lookup_insert_eq. reflexivity.
    + injection Hrun as <- <- <-. rewrite Ec. simpl. rewrite Es. reflexivity.
  - injection Hrun as <- <- <-. rewrite Ec. reflexivity.
  - injection Hrun as <- <- <-. rewrite Ec. reflexivity.
Qed.

Lemma reference_is_cached_witness :
  get_type twice_schema 1 (JObj [("$ref", JStr "Node"); ("default", JNull)])
      (<["Node" := node_struct]> (<["Node" := cycle_placeholder]>
         (<["Node" := JStr "in progress"]> ∅)))
    = Ok (node_struct, JObj [("default", JNull)],
          <["Node" := node_struct]> (<["Node" := cycle_placeholder]>
            (<["Node" := JStr "in progress"]> ∅))).
Proof.
  refine (reference_is_cached twice_schema 2 0 ∅ _
            [("$ref", JStr "#/definitions/Node")]
            [("$ref", JStr "Node"); ("default", JNull)] "Node" node_struct (JObj [])
            _ _ _).
  - exists "#/definitions/Node". split; reflexivity.
  - exists "Node". split; reflexivity.
  - vm_compute. reflexivity.
Defined.

(** ** Unions *)

(** X6: in every cache a translation can have built, a union property is
    translated as its first alternative alone: the field carries the type
    and the metadata that [get_type] returns for [anyOf[0]], and the cache
    is the one this single call left.  The other alternatives are not
    resolved. *)
Theorem union_takes_first_alternative (schema : json) (fuel : nat) (s required : json)
    (key : string) (l : list (string * json)) (seen seen' : cache) (field : json)
    (Hseen : cache_inv schema seen)
    (Hunion : union_property l = true)
    (Hrun : struct_field (get_type schema fuel) s required key (JObj l) seen
              = Ok (field, seen')) :
  exists first_value spark_type metadata,
    py_getitem0 (default JNull (dict_lookup "anyOf" l)) = Ok first_value /\
    get_type schema fuel first_value seen = Ok (spark_type, metadata, seen') /\
    py_getitem field "type" = Ok spark_type /\
    (let? title := py_get s "title" JNull in py_setitem metadata "parentClass" title)
      = py_getitem field "metadata".
Proof.
  unfold union_property in Hunion. unfold struct_field in Hrun. inv_runs.
  match goal with
  | H : py_get (JObj l) "anyOf" JNull = Ok _ |- _ => simpl in H; injection H as <-
  end.
  rewrite Hunion in *. inv_runs.
  match goal with
  | H : get_type _ _ _ _ = Ok (?ty, _, _) |- _ =>
      rewrite (union_branch_dead _ _ _ _ _ _ _ Hseen H) in *
  end.
  inv_runs.
  match goal with
  | H : (if ?b then _ else _) _ = Ok _ |- _ => destruct b
  end; inv_runs;
    (do 3 eexists; split; [eassumption|]; split; [eassumption|]; split; [reflexivity|]);
    match goal with
    | H : py_get s "title" JNull = Ok _ |- _ => rewrite H
    end; simpl; assumption.
Qed.

Lemma union_takes_first_alternative_witness :
  exists first_value spark_type metadata,
    py_getitem0 (default JNull (dict_lookup "anyOf" [("anyOf", union_alternatives)]))
      = Ok first_value /\
    get_type union_schema 2 first_value ∅
      = Ok (spark_type, metadata,
            <["A" := struct_type
                 [JObj [("name", JStr "a"); ("nullable", JBool false);
                        ("metadata", JObj [("parentClass", JStr "A")]);
                        ("type", JStr "string")];
                  JObj [("name", JStr "c"); ("nullable", JBool false);
                        ("metadata", JObj [("parentClass", JStr "A")]);
                        ("type", JStr "boolean")]]]> (<["A" := JStr "in progress"]> ∅)) /\
    py_getitem
      (JObj [("name", JStr "u"); ("nullable", JBool true);
             ("metadata", JObj [("parentClass", JStr "Root")]);
             ("type", struct_type
                [JObj [("name", JStr "a"); ("nullable", JBool false);
                       ("metadata", JObj [("parentClass", JStr "A")]);
                       ("type", JStr "string")];
                 JObj [("name", JStr "c"); ("nullable", JBool false);
                       ("metadata", JObj [("parentClass", JStr "A")]);
                       ("type", JStr "boolean")]])]) "type" = Ok spark_type /\
    (let? title := py_get union_schema "title" JNull in
     py_setitem metadata "parentClass" title)
      = py_getitem
          (JObj [("name", JStr "u"); ("nullable", JBool true);
                 ("metadata", JObj [("parentClass", JStr "Root")]);
                 ("type", struct_type
                    [JObj [("name", JStr "a"); ("nullable", JBool false);
                           ("metadata", JObj [("parentClass", JStr "A")]);
                           ("type", JStr "string")];
                     JObj [("name", JStr "c"); ("nullable", JBool false);
                           ("metadata", JObj [("parentClass", JStr "A")]);
                           ("type", JStr "boolean")]])]) "metadata".
Proof.
  refine (union_takes_first_alternative union_schema 2 union_schema (JArr []) "u"
            [("anyOf", union_alternatives)] ∅ _ _ (cache_inv_empty _) eq_refl _).
  vm_compute. reflexivity.
Defined.

(** ** Nullability *)

(** X7: the [nullable] entry of a field is computed from the field's own
    metadata and from [required]: it is false when the metadata has a
    default, and otherwise it is true exactly when the name of the property
    is not in [required].  With a list of names for [required]: a property
    without default is nullable if and only if it is not listed. *)
Theorem nullable_rule (gt : json -> M (json * json)) (s required : json) (key : string)
    (value : json) (seen seen' : cache) (field : json)
    (Hrun : struct_field gt s required key value seen = Ok (field, seen')) :
  exists metadata nullable,
    py_getitem field "metadata" = Ok (JObj metadata) /\
    py_getitem field "nullable" = Ok (JBool nullable) /\
    (is_Some (dict_lookup "default" metadata) -> nullable = false) /\
    (dict_lookup "default" metadata = None ->
     py_in key required = Ok (negb nullable)) /\
    (forall names, dict_lookup "default" metadata = None -> required = JArr names ->
     nullable = negb (existsb (fun x => py_eq_str x key) names)).
Proof.
  assert (Hrule : exists metadata nullable,
    py_getitem field "metadata" = Ok (JObj metadata) /\
    py_getitem field "nullable" = Ok (JBool nullable) /\
    (is_Some (dict_lookup "default" metadata) -> nullable = false) /\
    (dict_lookup "default" metadata = None ->
     py_in key required = Ok (negb nullable))).
  { unfold struct_field in Hrun. inv_runs.
    match goal with
    | H : py_setitem _ _ _ = Ok _ |- _ => apply py_setitem_Ok in H as (md & -> & ->)
    end.
    do 2 eexists. split; [reflexivity|]. split; [reflexivity|].
    match goal with
    | H : py_in "default" _ = Ok ?b |- _ => simpl in H; injection H as <-
    end.
    split.
    - intros Hd. rewrite bool_decide_eq_true_2 in * by exact Hd. inv_runs. reflexivity.
    - intros Hd. rewrite bool_decide_eq_false_2 in *
        by (rewrite Hd; intros [? [=]]).
      inv_runs.
      match goal with
      | H : py_in key required = Ok ?b |- _ => rewrite H, negb_involutive
      end.
      reflexivity. }
  destruct Hrule as (metadata & nullable & Hmd & Hnull & Hdef & Hreq).
  exists metadata, nullable. repeat (split; [assumption|]).
  intros names Hd ->. specialize (Hreq Hd). simpl in Hreq. injection Hreq as ->.
  rewrite negb_involutive. reflexivity.
Qed.

Lemma nullable_rule_witness :
  exists metadata nullable,
    py_getitem
      (JObj [("name", JStr "name"); ("nullable", JBool true);
             ("metadata", JObj [("parentClass", JStr "Person")]); ("type", JStr "string")])
      "metadata" = Ok (JObj metadata) /\
    py_getitem
      (JObj [("name", JStr "name"); ("nullable", JBool true);
             ("metadata", JObj [("parentClass", JStr "Person")]); ("type", JStr "string")])
      "nullable" = Ok (JBool nullable) /\
    (is_Some (dict_lookup "default" metadata) -> nullable = false) /\
    (dict_lookup "default" metadata = None ->
     py_in "name" (JArr [JStr "id"]) = Ok (negb nullable)) /\
    (forall names, dict_lookup "default" metadata = None -> JArr [JStr "id"] = JArr names ->
     nullable = negb (existsb (fun x => py_eq_str x "name") names)).
Proof.
  refine (nullable_rule (get_type people_schema 1) people_schema (JArr [JStr "id"]) "name"
            (JObj [("type", JStr "string")]) ∅ ∅ _ _).
  vm_compute. reflexivity.
Defined.

(** ** Exceptions *)

(** X8: the translation has no partial result.  When the properties before
    [key] are translated and the property [key] raises an exception, the
    translation of the schema raises this exception, whatever the
    properties after [key] are. *)
Theorem first_failure_aborts (schema : json) (fuel : nat) (required : json)
    (pre post : list (string * json)) (key : string) (value : json)
    (fields : list json) (seen : cache) (e : exn)
    (Hreq : py_get schema "required" (JArr []) = Ok required)
    (Hprop : py_get schema "properties" (JObj [])
             = Ok (JObj (pre ++ (key, value) :: post)))
    (Hpre : get_fields_loop (get_type schema fuel) schema required pre [] ∅
            = Ok (fields, seen))
    (Hfail : struct_field (get_type schema fuel) schema required key value seen = Err e) :
  _spark_schema fuel schema = Err e.
Proof.
  unfold _spark_schema, get_fields, get_fields_body.
  rewrite Hreq, Hprop. unfold bind at 1. cbn [lift]. unfold bind at 1. cbn [lift].
  unfold bind at 1. cbn [lift py_items].
  rewrite get_fields_loop_app, Hpre. cbn [get_fields_loop]. unfold bind at 1.
  rewrite Hfail. reflexivity.
Qed.

Lemma first_failure_aborts_witness :
  _spark_schema 1 broken_schema = Err (NotImplementedError (JStr "null")).
Proof.
  refine (first_failure_aborts broken_schema 1 (JArr [])
            [("id", JObj [("type", JStr "integer")])]
            [("customer", JObj [("$ref", JStr "#/definitions/Customer")])]
            "payload" (JObj [("type", JStr "null")]) _ _ _ eq_refl eq_refl _ _).
  - vm_compute. reflexivity.
  - vm_compute. reflexivity.
Defined.

(** ** Reference strings *)

Lemma prefix_append (p s : string) : String.prefix p (p ++ s)%string = true.
Proof.
  induction p as [|c p IH]; simpl; [destruct s; reflexivity|].
  destruct (Ascii.ascii_dec c c); [exact IH | congruence].
Qed.

Lemma remove_all_skip old (p s : string) :
  remove_all old (String.length p) (p ++ s)%string = remove_all old 0 s.
Proof.
  induction p as [|c p IH]; simpl; [reflexivity|]. exact IH.
Qed.

Lemma remove_all_prefix old (s : string) :
  old <> EmptyString ->
  remove_all old 0 (old ++ s)%string = remove_all old 0 s.
Proof.
  intros Hold. destruct old as [|c old]; [congruence|].
  change ((String c old ++ s)%string) with (String c (old ++ s)%string).
  cbn [remove_all].
  change (String c (old ++ s)%string) with ((String c old ++ s)%string).
  rewrite prefix_append. cbn [String.length Nat.sub]. rewrite ?Nat.sub_0_r.
  exact (remove_all_skip (String c old) old s).
Qed.

Lemma remove_all_absent old (s : string) :
  is_substring old s = false -> remove_all old 0 s = s.
Proof.
  induction s as [|c s IH]; [reflexivity|].
  cbn [is_substring remove_all]. intros H. apply orb_false_elim in H as [Hp Hs].
  rewrite Hp, IH by exact Hs. reflexivity.
Qed.

(** X9: a reference is resolved by deleting ["#/definitions/"] from it.  For
    a name that does not contain this text, both ["#/definitions/" + name]
    and the bare name resolve to the definition stored under the name. *)
Theorem reference_round_trip (schema : json) (defs : list (string * json))
    (name : string) (d : json)
    (Htable : definitions_table schema = Some defs)
    (Hd : dict_lookup name defs = Some d)
    (Hnull : d <> JNull)
    (Hname : is_substring "#/definitions/" name = false) :
  get_definition (JStr ("#/definitions/" ++ name)%string) schema = Ok d /\
  get_definition (JStr name) schema = Ok d.
Proof.
  assert (Hdef : definition_of schema name = Ok d).
  { unfold definitions_table, definition_of in *.
    destruct (py_get schema "definitions" (JObj [])) as [[| | | | | |defs']|e];
      try discriminate Htable.
    injection Htable as ->. simpl. rewrite Hd. simpl. destruct d; congruence. }
  rewrite !get_definition_str.
  rewrite remove_all_prefix by discriminate.
  rewrite remove_all_absent by exact Hname. split; exact Hdef.
Qed.

Lemma reference_round_trip_witness :
  get_definition (JStr ("#/definitions/" ++ "Node")%string) twice_schema
    = Ok node_definition /\
  get_definition (JStr "Node") twice_schema = Ok node_definition.
Proof.
  refine (reference_round_trip twice_schema [("Node", node_definition)] "Node"
            node_definition eq_refl eq_refl _ eq_refl).
  discriminate.
Defined.

(** ** Annotations *)

(** X11: a descriptor is translated from seven of its entries.  Two
    descriptors that agree on them, whatever titles, descriptions or
    constraints they carry besides, have the same translation, as a type and
    as a property. *)
Theorem annotations_are_ignored (schema : json) (fuel : nat) (seen : cache)
    (l1 l2 : list (string * json))
    (Hsame : forall k, In k descriptor_keys -> dict_lookup k l1 = dict_lookup k l2) :
  get_type schema fuel (JObj l1) seen = get_type schema fuel (JObj l2) seen /\
  forall s required key,
    struct_field (get_type schema fuel) s required key (JObj l1) seen
    = struct_field (get_type schema fuel) s required key (JObj l2) seen.
Proof.
  assert (Hk : forall k, In k descriptor_keys ->
            py_get (JObj l1) k JNull = py_get (JObj l2) k JNull).
  { intros k Hin. simpl. rewrite (Hsame k Hin). reflexivity. }
  assert (Hd : py_in "default" (JObj l1) = py_in "default" (JObj l2)).
  { simpl. rewrite (Hsame "default") by (simpl; tauto). reflexivity. }
  assert (Hty : get_type schema fuel (JObj l1) seen = get_type schema fuel (JObj l2) seen).
  { destruct fuel as [|fuel]; [reflexivity|].
    cbn [get_type]. unfold get_type_body.
    rewrite Hd, !Hk by (simpl; tauto). reflexivity. }
  split; [exact Hty|].
  intros s required key. unfold struct_field, bind, lift.
  rewrite (Hk "anyOf") by (simpl; tauto).
  destruct (py_get s "title" JNull) as [title|e]; [|reflexivity].
  cbn [py_get]. destruct (truthy _); [reflexivity|].
  rewrite Hty. reflexivity.
Qed.

Lemma annotations_are_ignored_witness :
  get_type JNull 1
    (JObj [("title", JStr "Id"); ("type", JStr "integer"); ("minimum", JInt 0)]) ∅
  = get_type JNull 1 (JObj [("type", JStr "integer")]) ∅ /\
  forall s required key,
    struct_field (get_type JNull 1) s required key
      (JObj [("title", JStr "Id"); ("type", JStr "integer"); ("minimum", JInt 0)]) ∅
    = struct_field (get_type JNull 1) s required key (JObj [("type", JStr "integer")]) ∅.
Proof.
  apply (annotations_are_ignored JNull 1 ∅
           [("title", JStr "Id"); ("type", JStr "integer"); ("minimum", JInt 0)]
           [("type", JStr "integer")]).
  intros k Hin. simpl in Hin.
  repeat (destruct Hin as [<-|Hin]; [reflexivity|]). destruct Hin.
Defined.

(** ** The shape of the output *)

Lemma spark_type_tests v :
  spark_type v ->
  v <> JNull /\ py_eq_str v "struct" = false /\ py_eq_str v "in progress" = false.
Proof.
  intros H. destruct H as [s Hs| | | |]; try (repeat split; (discriminate || reflexivity)).
  simpl in Hs. repeat split; try discriminate;
    repeat (destruct Hs as [<-|Hs]; [reflexivity|]); destruct Hs.
Qed.

Lemma cache_shape_insert seen k v :
  cache_shape seen -> v = JStr "in progress" \/ spark_type v ->
  cache_shape (<[k := v]> seen).
Proof.
  intros Hseen Hv k' v' H. destruct (decide (k = k')) as [<-|Hne].
  - rewrite lookup_insert_eq in H. injection H as <-. exact Hv.
  - rewrite lookup_insert_ne in H by exact Hne. eauto.
Qed.

Lemma hoare_pre_pure {A} (P : cache -> Prop) (phi : Prop) (m : M A)
    (Q : A -> cache -> Prop) E :
  (phi -> hoare P m Q E) -> hoare (fun seen => P seen /\ phi) m Q E.
Proof. intros H seen [HP Hphi]. apply H; assumption. Qed.

Section Shape.

Variable gt : json -> M (json * json).

Let any_exn : exn -> Prop := fun _ => True.

Hypothesis gt_shape : forall value,
  hoare cache_shape (gt value) (fun x seen' => cache_shape seen' /\ spark_type x.1) any_exn.

Lemma struct_field_shape s required key value :
  hoare cache_shape (struct_field gt s required key value)
    (fun field seen' => cache_shape seen' /\ spark_field field) any_exn.
Proof.
  unfold struct_field.
  apply hoare_bind_lift; [intros; exact I | intros p_class _].
  apply hoare_bind_lift; [intros; exact I | intros anyof _].
  eapply hoare_bind with
    (R := fun x seen' => cache_shape seen' /\ spark_type x.1).
  - destruct (truthy anyof); [|apply gt_shape].
    apply hoare_bind_lift; [intros; exact I | intros first_value _].
    eapply hoare_bind; [apply gt_shape | intros [first_subtype first_metadata]].
    apply hoare_pre_pure. simpl. intros Hty.
    destruct (spark_type_tests _ Hty) as (_ & -> & _).
    apply hoare_ret. auto.
  - intros [spark_type0 metadata]. apply hoare_pre_pure. simpl. intros Hty.
    apply hoare_bind_lift; [intros; exact I | intros metadata' Hmd].
    apply py_setitem_Ok in Hmd as (md & -> & ->).
    apply hoare_bind_lift; [intros; exact I | intros has_default _].
    eapply hoare_bind with (R := fun _ seen' => cache_shape seen').
    + destruct has_default; [apply hoare_ret; auto|].
      apply hoare_bind_lift; [intros; exact I | intros in_required _].
      apply hoare_ret. auto.
    + intros nullable. apply hoare_ret. intros seen Hseen.
      split; [exact Hseen | constructor; exact Hty].
Qed.

Lemma get_fields_loop_shape s required items fields :
  Forall spark_field fields ->
  hoare cache_shape (get_fields_loop gt s required items fields)
    (fun out seen' => cache_shape seen' /\ Forall spark_field out) any_exn.
Proof.
  revert fields. induction items as [|[key value] items IH]; intros fields Hfields;
    cbn [get_fields_loop].
  - apply hoare_ret. auto.
  - eapply hoare_bind; [apply struct_field_shape | intros field].
    apply hoare_pre_pure. intros Hfield. apply IH.
    apply Forall_app. split; [exact Hfields | constructor; [exact Hfield | constructor]].
Qed.

Lemma get_fields_body_shape s :
  hoare cache_shape (get_fields_body gt s)
    (fun out seen' => cache_shape seen' /\ Forall spark_field out) any_exn.
Proof.
  unfold get_fields_body.
  apply hoare_bind_lift; [intros; exact I | intros required _].
  apply hoare_bind_lift; [intros; exact I | intros properties _].
  apply hoare_bind_lift; [intros; exact I | intros items _].
  apply get_fields_loop_shape. constructor.
Qed.

Lemma get_type_of_definition_shape ref schema :
  hoare cache_shape (get_type_of_definition (get_fields_body gt) ref schema)
    (fun ty seen' => cache_shape seen' /\ spark_type ty) any_exn.
Proof.
  unfold get_type_of_definition.
  apply hoare_bind_lift; [intros; exact I | intros d _].
  apply hoare_bind_lift; [intros; exact I | intros has_enum _].
  destruct has_enum.
  - apply hoare_bind_lift; [intros; exact I | intros enum_type _].
    repeat match goal with
           | |- hoare _ (if ?b then _ else _) _ _ => destruct b
           end;
      try (apply hoare_raise; exact I);
      apply hoare_ret; intros seen Hseen;
      (split; [exact Hseen | constructor; simpl; tauto]).
  - eapply hoare_bind; [apply get_fields_body_shape | intros fields].
    apply hoare_pre_pure. intros Hfields. apply hoare_ret. intros seen Hseen.
    split; [exact Hseen | constructor; exact Hfields].
Qed.

Lemma typed_branch_shape l :
  hoare cache_shape (typed_branch gt l)
    (fun x seen' => cache_shape seen' /\ spark_type x.1) any_exn.
Proof.
  unfold typed_branch.
  repeat match goal with
         | |- hoare _ (if ?b then _ else _) _ _ => destruct b
         end;
    try (apply hoare_raise; exact I);
    try (apply hoare_ret; intros seen Hseen;
         (split; [exact Hseen | constructor; simpl; tauto])).
  - eapply hoare_bind; [apply gt_shape | intros [tn metadata]].
    apply hoare_pre_pure. simpl. intros Hty. apply hoare_ret. intros seen Hseen.
    split; [exact Hseen | constructor; exact Hty].
  - eapply hoare_bind with (R := fun vt seen' => cache_shape seen' /\ spark_type vt).
    + destruct (default JNull (dict_lookup "additionalProperties" l));
        try (apply hoare_ret; intros seen Hseen;
             (split; [exact Hseen | constructor; simpl; tauto]); fail);
        (eapply hoare_bind; [apply gt_shape | intros [value_type md]]);
        apply hoare_pre_pure; simpl; intros Hty; apply hoare_ret; auto.
    + intros value_type. apply hoare_pre_pure. intros Hty. apply hoare_ret.
      intros seen Hseen. split; [exact Hseen | constructor; exact Hty].
Qed.

End Shape.

Lemma get_type_shape schema fuel value :
  hoare cache_shape (get_type schema fuel value)
    (fun x seen' => cache_shape seen' /\ spark_type x.1) (fun _ => True).
Proof.
  revert value. induction fuel as [|fuel IH]; intros value seen Hseen; [exact I|].
  destruct value as [| | | | | |l]; try exact I.
  destruct (dict_lookup "$ref" l) as [r|] eqn:Er.
  - destruct r as [| | | |r| |];
      try (rewrite (get_type_bad_ref _ _ _ _ _ Er) by congruence; exact I).
    + rewrite get_type_no_ref by (unfold no_ref; rewrite Er; reflexivity).
      apply (typed_branch_shape _ IH). exact Hseen.
    + rewrite (get_type_ref _ _ _ _ _ Er). cbv zeta.
      set (class_name := remove_all "#/definitions/" 0 r).
      destruct (seen !! class_name) as [cached|] eqn:Ec; simpl.
      * destruct (Hseen _ _ Ec) as [->|Hty].
        -- simpl. split; [|constructor].
           apply cache_shape_insert; [exact Hseen | right; constructor].
        -- destruct (spark_type_tests _ Hty) as (Hnull & _ & Hprog).
           destruct cached; try congruence; simpl in Hprog |- *; rewrite ?Hprog;
             (split; [exact Hseen | exact Hty]).
      * pose proof (get_type_of_definition_shape _ IH (JStr r) schema
                      (<[class_name := JStr "in progress"]> seen)
                      (cache_shape_insert _ _ _ Hseen (or_introl eq_refl))) as Hgtod.
        destruct (get_type_of_definition _ _ _ _) as [[spark_type0 seen1]|e]; [|exact I].
        destruct Hgtod as [Hseen1 Hty]. split; [|exact Hty].
        apply cache_shape_insert; [exact Hseen1 | right; exact Hty].
  - rewrite get_type_no_ref by (unfold no_ref; rewrite Er; reflexivity).
    apply (typed_branch_shape _ IH). exact Hseen.
Qed.

(** X10: whatever the schema, a translation that returns a result returns a
    struct whose fields have exactly the entries [name], [nullable],
    [metadata] and [type], with a str, a bool and a dict for the first
    three, and for [type] a primitive type, an array, a map, a struct of
    such fields, or the placeholder of a cycle.  In particular the marker
    ["in progress"] never appears as a type. *)
Theorem output_shape (schema : json) (fuel : nat) (out : json)
    (Hrun : _spark_schema fuel schema = Ok out) :
  exists fields,
    out = JObj [("fields", JArr fields); ("type", JStr "struct")] /\
    Forall spark_field fields.
Proof.
  unfold _spark_schema, get_fields in Hrun.
  pose proof (get_fields_body_shape _ (get_type_shape schema fuel) schema ∅) as H.
  destruct (get_fields_body _ _ _) as [[fields seen]|e]; [|discriminate Hrun].
  injection Hrun as <-. exists fields. split; [reflexivity|].
  apply H. intros k v Hk. rewrite lookup_empty in Hk. discriminate Hk.
Qed.

Lemma output_shape_witness :
  exists fields,
    JObj [("fields",
           JArr [JObj [("name", JStr "head");
                       ("nullable", JBool true);
                       ("metadata", JObj [("parentClass", JStr "List")]);
                       ("type", node_struct)]]);
          ("type", JStr "struct")]
      = JObj [("fields", JArr fields); ("type", JStr "struct")] /\
    Forall spark_field fields.
Proof.
  apply (output_shape node_schema 2). vm_compute. reflexivity.
Defined.

(** ** The exceptions of a well-formed schema *)

Lemma dict_lookup_In k (l : list (string * json)) v :
  dict_lookup k l = Some v -> In (k, v) l.
Proof.
  induction l as [|[k' v'] l IH]; simpl; [discriminate|].
  destruct (String.eqb_spec k k') as [->|_]; [intros [= ->]; auto | auto].
Qed.

Lemma wf_definition schema id :
  wf_schema schema ->
  match definition_of schema id with
  | Ok d => wf_node d
  | Err e => e = RuntimeError (Definition_does_not_exist id)
  end.
Proof.
  intros [_ (defs & Ht & Hdefs)]. unfold definitions_table, definition_of in *.
  destruct (py_get schema "definitions" (JObj [])) as [[| | | | | |defs']|e];
    try discriminate Ht.
  injection Ht as ->. simpl.
  destruct (dict_lookup id defs) as [d|] eqn:Ed; simpl; [|reflexivity].
  apply dict_lookup_In in Ed. rewrite Forall_forall in Hdefs.
  apply list_elem_of_In in Ed. specialize (Hdefs _ Ed). simpl in Hdefs.
  destruct Hdefs as [->|Hd]; [reflexivity|].
  destruct Hd as (ls & -> & ?). simpl. exists ls. auto.
Qed.

Section Taxonomy.

Variable schema : json.
Hypothesis schema_wf : wf_schema schema.
Variable gt : json -> M (json * json).

Let inv := cache_inv schema.
Let post : json * json -> cache -> Prop :=
  fun x seen' => inv seen' /\ resolved x.1 /\ exists md, x.2 = JObj md.

Hypothesis gt_ok : forall value,
  wf_descriptor value -> hoare inv (gt value) post documented_or_fuel.

Ltac ok_lift :=
  apply hoare_bind_lift;
  [ let He := fresh in intros ? He; simpl in He; discriminate He
  | let He := fresh in intros ? He; simpl in He; try (injection He as <-) ].

Lemma struct_field_ok ls names key value :
  wf_descriptor value ->
  hoare inv (struct_field gt (JObj ls) (JArr names) key value)
    (fun _ seen' => inv seen') documented_or_fuel.
Proof.
  intros Hwf. unfold struct_field. destruct Hwf as [l Href Hany Hitems Harr Hadd].
  ok_lift. ok_lift.
  eapply hoare_bind with (R := post).
  - destruct (truthy (default JNull (dict_lookup "anyOf" l))) eqn:Et.
    + destruct (dict_lookup "anyOf" l) as [anyof|] eqn:Ea; [|discriminate Et].
      destruct (Hany anyof eq_refl) as (alts & -> & Halts). simpl in Et |- *.
      destruct Halts as [|first alts Hfirst _]; [discriminate Et|].
      ok_lift. simplify_eq.
      eapply hoare_bind; [apply gt_ok; exact Hfirst | intros [first_subtype first_metadata]].
      intros seen (Hseen & Hres & Hmd). simpl in Hres, Hmd.
      replace (py_eq_str first_subtype "struct") with false.
      * exact (conj Hseen (conj Hres Hmd)).
      * destruct Hres as [_ Hstruct].
        destruct first_subtype as [| | | |t| |]; try reflexivity.
        simpl. destruct (String.eqb_spec t "struct"); congruence.
    + apply gt_ok. constructor; assumption.
  - intros [spark_type0 metadata]. unfold post. simpl.
    eapply hoare_conseq with
      (P := fun seen => inv seen /\ exists md, metadata = JObj md)
      (Q := fun _ seen' => inv seen') (E := documented_or_fuel);
      [ | intros; tauto | auto | auto].
    apply hoare_pre_pure. intros [md ->].
    ok_lift. ok_lift.
    eapply hoare_bind with (R := fun _ seen' => inv seen').
    + match goal with
      | |- hoare _ (if ?b then _ else _) _ _ => destruct b
      end; [apply hoare_ret; auto|].
      ok_lift. apply hoare_ret. auto.
    + intros nullable. apply hoare_ret. auto.
Qed.

Lemma get_fields_loop_ok ls names items fields :
  Forall (fun kv : string * json => wf_descriptor kv.2) items ->
  hoare inv (get_fields_loop gt (JObj ls) (JArr names) items fields)
    (fun _ seen' => inv seen') documented_or_fuel.
Proof.
  intros Hitems. revert fields.
  induction Hitems as [|[key value] items Hv _ IH]; intros fields; cbn [get_fields_loop].
  - apply hoare_ret. auto.
  - eapply hoare_bind; [apply struct_field_ok; exact Hv | intros field; apply IH].
Qed.

Lemma get_fields_body_ok s :
  wf_node s ->
  hoare inv (get_fields_body gt s) (fun _ seen' => inv seen') documented_or_fuel.
Proof.
  intros (ls & -> & Hprops & Hreq). unfold get_fields_body.
  ok_lift. ok_lift.
  destruct (dict_lookup "properties" ls) as [p|] eqn:Ep; simpl.
  - destruct (Hprops p eq_refl) as (items & -> & Hitems). ok_lift.
    destruct (dict_lookup "required" ls) as [req|] eqn:Er; simpl.
    + destruct (Hreq req eq_refl) as (names & ->). apply get_fields_loop_ok. exact Hitems.
    + apply get_fields_loop_ok. exact Hitems.
  - ok_lift. apply hoare_ret. auto.
Qed.

Lemma get_type_of_definition_ok r :
  let class_name := remove_all "#/definitions/" 0 r in
  hoare (fun seen => defined schema class_name -> inv seen)
    (get_type_of_definition (get_fields_body gt) (JStr r) schema)
    (fun spark_type seen' =>
       inv seen' /\ resolved spark_type /\ defined schema class_name)
    documented_or_fuel.
Proof.
  intros class_name. unfold get_type_of_definition. rewrite get_definition_str.
  fold class_name. pose proof (wf_definition schema class_name schema_wf) as Hd.
  destruct (definition_of schema class_name) as [d|e] eqn:Ed.
  - assert (Hdef : defined schema class_name) by (exists d; exact Ed).
    destruct Hd as (ls & -> & Hnode).
    eapply hoare_conseq with
      (P := inv) (Q := fun spark_type seen' => inv seen' /\ resolved spark_type)
      (E := documented_or_fuel);
      [ | intros seen Hseen; exact (Hseen Hdef) | cbv beta; intros; tauto | auto].
    ok_lift. ok_lift.
    match goal with
    | |- hoare _ (if ?b then _ else _) _ _ => destruct b
    end.
    + ok_lift.
      repeat match goal with
             | |- hoare _ (if ?b then _ else _) _ _ => destruct b
             end;
        try (apply hoare_raise; right; right; left; eauto);
        apply hoare_ret; intros; (split; [assumption | split; discriminate]).
    + eapply hoare_bind;
        [apply get_fields_body_ok; exists ls; split; [reflexivity | exact Hnode]
        | intros fields].
      apply hoare_ret. intros seen Hseen. split; [assumption | split; discriminate].
  - subst e. intros seen _. unfold bind, lift. right. left. eauto.
Qed.

Lemma typed_branch_ok l :
  wf_descriptor (JObj l) -> no_ref l ->
  hoare inv (typed_branch gt l) post documented_or_fuel.
Proof.
  intros Hwf Hnoref. inversion Hwf as [l' Href Hany Hitems Harr Hadd Heq]. subst l'.
  unfold typed_branch, post, resolved, carried_default.
  repeat match goal with
         | |- hoare _ (if ?b then _ else _) _ _ => destruct b eqn:?
         end;
    try (apply hoare_raise; right; right; right; eauto; fail);
    try (apply hoare_ret; simpl; intros;
         (split; [assumption | split; [split; discriminate | eauto]]); fail).
  - destruct (dict_lookup "items" l) as [d|] eqn:Ed; simpl.
    + eapply hoare_bind; [apply gt_ok; apply Hitems; reflexivity | intros [tn metadata]].
      apply hoare_ret. unfold post. simpl. intros seen (Hseen & _ & Hmd).
      split; [assumption | split; [split; discriminate | exact Hmd]].
    + match goal with
      | H : py_eq_str (effective_type l) "array" = true |- _ =>
          destruct (Harr (conj Hnoref H)) as [d' Hd']
      end.
      discriminate Hd'.
  - eapply hoare_bind with (R := fun _ seen' => inv seen').
    + destruct (dict_lookup "additionalProperties" l) as [a|] eqn:Ea; simpl.
      * destruct (Hadd a eq_refl) as [->|Ha]; [apply hoare_ret; auto|].
        assert (Hrun : hoare inv (let* (value_type, m) := gt a in ret value_type)
                         (fun _ seen' => inv seen') documented_or_fuel).
        { eapply hoare_bind; [apply gt_ok; exact Ha | intros [value_type md]].
          apply hoare_ret. unfold post. intros; tauto. }
        destruct a; try exact Hrun. apply hoare_ret. auto.
      * apply hoare_ret. auto.
    + intros value_type. apply hoare_ret. simpl. intros.
      split; [assumption | split; [split; discriminate | eauto]].
Qed.

End Taxonomy.

Lemma get_type_ok schema fuel value :
  wf_schema schema -> wf_descriptor value ->
  hoare (cache_inv schema) (get_type schema fuel value)
    (fun x seen' => cache_inv schema seen' /\ resolved x.1 /\ exists md, x.2 = JObj md)
    documented_or_fuel.
Proof.
  intros Hschema. revert value.
  induction fuel as [|fuel IH]; intros value Hwf seen Hseen; [left; reflexivity|].
  inversion Hwf as [l Href Hany Hitems Harr Hadd Heq]. subst value.
  assert (Hmd : exists md, carried_default l = JObj md) by (eexists; reflexivity).
  destruct (dict_lookup "$ref" l) as [r|] eqn:Er.
  - destruct (Href r eq_refl) as [->|[r' ->]].
    + assert (Hno : no_ref l) by (unfold no_ref; rewrite Er; reflexivity).
      rewrite get_type_no_ref by exact Hno.
      apply (typed_branch_ok schema _ IH l Hwf Hno). exact Hseen.
    + rewrite (get_type_ref _ _ _ _ _ Er). cbv zeta.
      set (class_name := remove_all "#/definitions/" 0 r').
      destruct (seen !! class_name) as [cached|] eqn:Ec; simpl.
      * destruct (Hseen _ _ Ec) as [Hres Hdef].
        destruct cached as [| | | |s| |]; simpl;
          try (split; [exact Hseen | split; [exact Hres | exact Hmd]]).
        { destruct Hres as [Hnull _]. congruence. }
        destruct (String.eqb s "in progress").
        -- split; [|split; [exact resolved_placeholder | exact Hmd]].
           apply cache_inv_insert; [exact Hseen | exact resolved_placeholder | exact Hdef].
        -- split; [exact Hseen | split; [exact Hres | exact Hmd]].
      * pose proof (get_type_of_definition_ok schema Hschema _ IH r'
                      (<[class_name := JStr "in progress"]> seen)) as Hgtod.
        cbv zeta in Hgtod. fold class_name in Hgtod.
        destruct (get_type_of_definition _ _ _ _) as [[spark_type0 seen1]|e].
        -- destruct Hgtod as (Hinv1 & Hres & Hdef).
           { intros Hdef. apply cache_inv_insert;
               [exact Hseen | exact resolved_in_progress | exact Hdef]. }
           split; [|split; [exact Hres | exact Hmd]].
           apply cache_inv_insert; assumption.
        -- apply Hgtod. intros Hdef. apply cache_inv_insert;
             [exact Hseen | exact resolved_in_progress | exact Hdef].
  - assert (Hno : no_ref l) by (unfold no_ref; rewrite Er; reflexivity).
    rewrite get_type_no_ref by exact Hno.
    apply (typed_branch_ok schema _ IH l Hwf Hno). exact Hseen.
Qed.

(** X13: on a well-formed schema, and on every budget of nested calls, the
    translation raises no attribute, type, key or index error out of its
    dictionary and list accesses.  It returns a struct, or raises one of
    the three exceptions the code raises itself (the runtime error of a
    missing definition, the runtime error of an enumeration over an unknown
    type, the error of an unsupported type), or the nesting of calls exceeds
    the budget, which is where the interpreter raises its RecursionError. *)
Theorem documented_exceptions (schema : json) (fuel : nat) (e : exn)
    (Hschema : wf_schema schema)
    (Hrun : _spark_schema fuel schema = Err e) :
  e = OutOfFuel \/ documented e.
Proof.
  unfold _spark_schema, get_fields in Hrun.
  pose proof (get_fields_body_ok schema _
                (fun value => get_type_ok schema fuel value Hschema)
                schema (proj1 Hschema) ∅ (cache_inv_empty schema)) as H.
  destruct (get_fields_body _ _ _) as [[fields seen]|e']; [discriminate Hrun|].
  injection Hrun as ->. exact H.
Qed.

Lemma wf_typed t :
  String.eqb t "array" = false -> wf_descriptor (JObj [("type", JStr t)]).
Proof.
  intros Ht. constructor; simpl; try (intros; discriminate).
  intros [_ Harr]. unfold effective_type in Harr. simpl in Harr.
  destruct (String.eqb t ""); simpl in Harr; congruence.
Qed.

Lemma wf_reference r : wf_descriptor (JObj [("$ref", JStr r)]).
Proof.
  constructor; simpl; try (intros; discriminate).
  - intros r0 [= <-]. eauto.
  - intros [Href _]. discriminate Href.
Qed.

Lemma documented_exceptions_witness :
  RuntimeError (Definition_does_not_exist "Customer") = OutOfFuel \/
  documented (RuntimeError (Definition_does_not_exist "Customer")).
Proof.
  apply (documented_exceptions dangling_schema 1).
  - split.
    + eexists. split; [reflexivity|]. split.
      * intros p [= <-]. eexists. split; [reflexivity|].
        constructor; [apply wf_typed; reflexivity|].
        constructor; [apply wf_reference|].
        constructor; [apply wf_typed; reflexivity | constructor].
      * intros req [=].
    + eexists. split; [reflexivity|].
      constructor; [|constructor]. right.
      eexists. split; [reflexivity|]. split; intros ? [=].
  - vm_compute. reflexivity.
Defined.

(** ** The entries of a schema *)

(** X14: the translation of a schema depends on four of its entries only.
    Two schemas that agree on [required], [properties], [title] and
    [definitions] have the same translation, whatever else they contain. *)
Theorem schema_entries_read (fuel : nat) (l1 l2 : list (string * json))
    (Hsame : forall k, In k schema_keys -> dict_lookup k l1 = dict_lookup k l2) :
  _spark_schema fuel (JObj l1) = _spark_schema fuel (JObj l2).
Proof.
  assert (Hk : forall k dflt, In k schema_keys ->
            py_get (JObj l1) k dflt = py_get (JObj l2) k dflt).
  { intros k dflt Hin. simpl. rewrite (Hsame k Hin). reflexivity. }
  assert (Hdef : forall ref, get_definition ref (JObj l1) = get_definition ref (JObj l2)).
  { intros ref. unfold get_definition. rewrite Hk by (simpl; tauto). reflexivity. }
  unfold _spark_schema, get_fields.
  assert (Hbody : get_fields_body (get_type (JObj l1) fuel) (JObj l1) ∅
                  = get_fields_body (get_type (JObj l2) fuel) (JObj l2) ∅).
  { transitivity (get_fields_body (get_type (JObj l1) fuel) (JObj l2) ∅).
    - apply get_fields_body_same_node; apply Hk; simpl; tauto.
    - apply (get_fields_body_congr (@same_run) same_run_refl same_run_bind).
      apply get_type_same_definitions. exact Hdef. }
  rewrite Hbody. reflexivity.
Qed.

Lemma schema_entries_read_witness :
  _spark_schema 1
    (JObj [("title", JStr "Person"); ("description", JStr "A person.");
           ("properties", JObj [("id", JObj [("type", JStr "integer")])]);
           ("type", JStr "object")])
  = _spark_schema 1
      (JObj [("properties", JObj [("id", JObj [("type", JStr "integer")])]);
             ("title", JStr "Person")]).
Proof.
  apply schema_entries_read.
  intros k Hin. simpl in Hin.
  repeat (destruct Hin as [<-|Hin]; [reflexivity|]). destruct Hin.
Defined.
